(** * Variational Quantum Boltzmann Machine notebook (QML/Session3.ipynb)

    A shallow embedding of the code cells of the notebook: the initial
    ansatz parameters, the imaginary-time integrator
    [get_gibbs_state_params] and the distribution-fitting [loss].

    Numbers.  The notebook computes with IEEE doubles (CPython [float],
    numpy [float64] and [complex128]).  They are modelled as the real
    numbers extended with the three special values [+inf], [-inf] and
    [nan]: every operation follows the IEEE/numpy rules on the special
    values and is exact on finite values (rounding, overflow to infinity
    and the sign of zero are not modelled).  A Python [int] is taken to
    convert to the double of the same value, which is exact below
    [2 ^ 53] in absolute value.  The sum of line 474 is also given on
    binary64 numbers ([loss_fn_b64]), where the order of the additions
    matters.

    Collaborators.  qiskit's natural-gradient evaluation and its circuit
    simulator are not part of the repository; they are Section variables,
    functions of the arguments the notebook passes them, that either
    return an array or raise. *)

From Stdlib Require Import Floats.
From Stdlib Require Import String.
From Stdlib Require Import Reals Lra Lia ZArith List Bool Permutation.
Import ListNotations.

(* ================================================================== *)
(** * Part I: definitions *)
(* ================================================================== *)

(** ** Python exceptions and the error monad *)

Inductive exn : Type :=
| ZeroDivisionError
| ValueError
| IndexError
| Raised (name : string).   (* an exception raised inside a collaborator *)

Inductive result (A : Type) : Type :=
| Ok (a : A)
| Err (e : exn).

Arguments Ok {A} a.
Arguments Err {A} e.

Definition bind {A B : Type} (m : result A) (k : A -> result B) : result B :=
  match m with
  | Ok a => k a
  | Err e => Err e
  end.

Declare Scope py_scope.
Delimit Scope py_scope with py.
Notation "x <- m ;; k" := (bind m (fun x => k))
  (at level 61, m at next level, right associativity) : py_scope.
Open Scope py_scope.

(** [n]-fold Kleisli composition of a fallible step. *)
Fixpoint iterM {A : Type} (n : nat) (f : A -> result A) (x : A) : result A :=
  match n with
  | O => Ok x
  | S k => y <- f x ;; iterM k f y
  end.

(** ** Doubles *)

Inductive float64 : Type :=
| Finite (r : R)
| PInf
| NInf
| NaN.

Definition is_nan (x : float64) : bool :=
  match x with NaN => true | _ => false end.

Definition is_finite (x : float64) : bool :=
  match x with Finite _ => true | _ => false end.

Definition inf (positive : bool) : float64 :=
  if positive then PInf else NInf.

(** [r * (+-inf)]: the sign of [r] decides, and [0 * inf] is [nan]. *)
Definition scale_inf (r : R) (positive : bool) : float64 :=
  match total_order_T r 0 with
  | inleft (left _) => inf (negb positive)
  | inleft (right _) => NaN
  | inright _ => inf positive
  end.

Definition fneg (x : float64) : float64 :=
  match x with
  | Finite r => Finite (- r)
  | PInf => NInf
  | NInf => PInf
  | NaN => NaN
  end.

Definition fadd (x y : float64) : float64 :=
  match x, y with
  | NaN, _ | _, NaN => NaN
  | Finite a, Finite b => Finite (a + b)
  | PInf, NInf | NInf, PInf => NaN
  | PInf, _ | _, PInf => PInf
  | NInf, _ | _, NInf => NInf
  end.

Definition fsub (x y : float64) : float64 := fadd x (fneg y).

Definition fmul (x y : float64) : float64 :=
  match x, y with
  | NaN, _ | _, NaN => NaN
  | Finite a, Finite b => Finite (a * b)
  | Finite a, PInf | PInf, Finite a => scale_inf a true
  | Finite a, NInf | NInf, Finite a => scale_inf a false
  | PInf, PInf | NInf, NInf => PInf
  | PInf, NInf | NInf, PInf => NInf
  end.

(** IEEE division, as numpy performs it (no exception). *)
Definition fdiv (x y : float64) : float64 :=
  match x, y with
  | NaN, _ | _, NaN => NaN
  | Finite a, Finite b =>
      if Req_dec_T b 0 then scale_inf a true else Finite (a / b)
  | Finite _, (PInf | NInf) => Finite 0
  | PInf, Finite b => if Rlt_dec b 0 then NInf else PInf
  | NInf, Finite b => if Rlt_dec b 0 then PInf else NInf
  | (PInf | NInf), (PInf | NInf) => NaN
  end.

(** [math.log]/[np.log] on a real double: [log 0 = -inf], [nan] below 0. *)
Definition flog (x : float64) : float64 :=
  match x with
  | Finite r =>
      match total_order_T r 0 with
      | inleft (left _) => NaN
      | inleft (right _) => NInf
      | inright _ => Finite (ln r)
      end
  | PInf => PInf
  | NInf => NaN
  | NaN => NaN
  end.

(** [hypot]: an infinite argument wins over [nan]. *)
Definition fhypot (x y : float64) : float64 :=
  match x, y with
  | (PInf | NInf), _ | _, (PInf | NInf) => PInf
  | NaN, _ | _, NaN => NaN
  | Finite a, Finite b => Finite (sqrt (a * a + b * b))
  end.

(** The two-argument arctangent on finite reals. *)
Definition Ratan2 (y x : R) : R :=
  match total_order_T x 0 with
  | inright _ => atan (y / x)
  | inleft (left _) =>
      if Rle_dec 0 y then atan (y / x) + PI else atan (y / x) - PI
  | inleft (right _) =>
      match total_order_T y 0 with
      | inright _ => PI / 2
      | inleft (left _) => - (PI / 2)
      | inleft (right _) => 0
      end
  end.

Definition fatan2 (y x : float64) : float64 :=
  match y, x with
  | NaN, _ | _, NaN => NaN
  | Finite b, Finite a => Finite (Ratan2 b a)
  | Finite _, PInf => Finite 0
  | Finite b, NInf => if Rle_dec 0 b then Finite PI else Finite (- PI)
  | PInf, Finite _ => Finite (PI / 2)
  | NInf, Finite _ => Finite (- (PI / 2))
  | PInf, PInf => Finite (PI / 4)
  | PInf, NInf => Finite (3 * PI / 4)
  | NInf, PInf => Finite (- (PI / 4))
  | NInf, NInf => Finite (- (3 * PI / 4))
  end.

(** A Python [int] used where a [float] is expected: the double of the
    same value.  The conversion is exact below [2 ^ 53] in absolute
    value; the rounding of a larger int, and the [OverflowError] of an
    int beyond the range of the doubles, are not modelled. *)
Definition float_of_int (n : Z) : float64 := Finite (IZR n).

(** CPython's [float.__truediv__]: a zero divisor raises. *)
Definition py_truediv (x y : float64) : result float64 :=
  match y with
  | Finite b => if Req_dec_T b 0 then Err ZeroDivisionError else Ok (fdiv x y)
  | _ => Ok (fdiv x y)
  end.

(** ** Complex doubles *)

Record complex128 : Type := Cx { re : float64; im : float64 }.

Definition of_float (x : float64) : complex128 := Cx x (Finite 0).

Definition cadd (z w : complex128) : complex128 :=
  Cx (fadd (re z) (re w)) (fadd (im z) (im w)).

Definition cneg (z : complex128) : complex128 :=
  Cx (fneg (re z)) (fneg (im z)).

(** numpy's complex product is the schoolbook formula on the parts. *)
Definition cmul (z w : complex128) : complex128 :=
  Cx (fsub (fmul (re z) (re w)) (fmul (im z) (im w)))
     (fadd (fmul (re z) (im w)) (fmul (im z) (re w))).

(** [np.log] on a complex double: [log|z| + i arg z]. *)
Definition clog (z : complex128) : complex128 :=
  Cx (flog (fhypot (re z) (im z))) (fatan2 (im z) (re z)).

(** ** The numpy and builtin operations the notebook calls *)

(** [range(lo, hi)] on Python ints. *)
Definition py_range (lo hi : Z) : list Z :=
  map (fun i => (lo + Z.of_nat i)%Z) (seq 0 (Z.to_nat (hi - lo))).

(** [np.zeros(n)]: a negative dimension raises. *)
Definition np_zeros (n : Z) : result (list float64) :=
  if (n <? 0)%Z then Err ValueError
  else Ok (repeat (Finite 0) (Z.to_nat n)).

Fixpoint set_nth {A : Type} (i : nat) (v : A) (l : list A) : list A :=
  match l, i with
  | [], _ => []
  | _ :: tl, O => v :: tl
  | x :: tl, S k => x :: set_nth k v tl
  end.

(** [arr[j] = v] on a one-dimensional array: a negative index counts from
    the end, an index outside [-len, len) raises. *)
Definition np_setitem (arr : list float64) (j : Z) (v : float64)
  : result (list float64) :=
  let n := Z.of_nat (length arr) in
  if ((0 <=? j) && (j <? n))%Z%bool then Ok (set_nth (Z.to_nat j) v arr)
  else if ((- n <=? j) && (j <? 0))%Z%bool then Ok (set_nth (Z.to_nat (j + n)) v arr)
  else Err IndexError.

(** A binary ufunc on two one-dimensional operands, with numpy's
    broadcasting: equal lengths pair up, a length-one operand is
    stretched, anything else raises. *)
Fixpoint zip_with {A B C : Type} (f : A -> B -> C) (xs : list A) (ys : list B)
  : list C :=
  match xs, ys with
  | x :: xs', y :: ys' => f x y :: zip_with f xs' ys'
  | _, _ => []
  end.

Definition broadcast {A B C : Type} (f : A -> B -> C) (xs : list A) (ys : list B)
  : result (list C) :=
  if Nat.eqb (length xs) (length ys) then Ok (zip_with f xs ys)
  else match xs, ys with
       | [x], _ => Ok (map (f x) ys)
       | _, [y] => Ok (map (fun x => f x y) xs)
       | _, _ => Err ValueError
       end.

Definition np_subtract : list float64 -> list float64 -> result (list float64) :=
  broadcast fsub.

(** [np.multiply] of a real array by a complex one: the real operand is
    cast to complex first. *)
Definition np_multiply (xs : list float64) (zs : list complex128)
  : result (list complex128) :=
  broadcast cmul (map of_float xs) zs.

(** [scalar * array] for a Python float and a real array. *)
Definition scalar_mul (h : float64) (xs : list float64) : list float64 :=
  map (fmul h) xs.

(** [np.real] on an array of complex doubles. *)
Definition np_real (zs : list complex128) : list float64 := map re zs.

Definition np_log (zs : list complex128) : list complex128 := map clog zs.

Definition np_sum (zs : list complex128) : complex128 :=
  fold_left cadd zs (of_float (Finite 0)).

(** [np.linspace(start, stop, num)] with the default [endpoint=True]. *)
Definition np_linspace (start stop : float64) (num : Z) : result (list float64) :=
  if (num <? 0)%Z then Err ValueError
  else
    let n := Z.to_nat num in
    let div := (num - 1)%Z in
    let delta := fsub stop start in
    let ramp := map (fun i => Finite (INR i)) (seq 0 n) in
    let y :=
      if (0 <? div)%Z
      then map (fun a => fadd (fmul a (fdiv delta (float_of_int div))) start) ramp
      else map (fun a => fadd (fmul a delta) start) ramp in
    Ok (if (1 <? num)%Z then set_nth (n - 1) stop y else y).

(** ** Cell 3: the initial ansatz parameters *)

Definition half_pi : float64 := Finite (PI / 2).

(** [for j in range(lo, hi): arr[int(j)] = np.pi/2.] *)
Definition fill_half_pi (lo hi : Z) (arr : list float64) : result (list float64) :=
  fold_left (fun acc j => a <- acc ;; np_setitem a j half_pi)
            (py_range lo hi) (Ok arr).

Module Cell3.
Definition param_values_init (num_qubits depth : Z) : result (list float64) :=
  arr <- np_zeros (2 * num_qubits * (depth + 1)) ;;
  fill_half_pi (2 * num_qubits * depth)
               (Z.of_nat (length arr) - num_qubits - 2) arr.
End Cell3.

(** ** Line 474 and 476: the cross-entropy of the trained distribution

    [loss_fn = -np.sum(np.multiply(p_target, np.log(p_qbm)))] followed by
    [np.real(loss_fn)].  [p_qbm] is the diagonal of a density matrix, an
    array of complex doubles; the logarithm is taken of every entry. *)
Definition loss_fn (p_target : list float64) (p_qbm : list complex128)
  : result float64 :=
  prod <- np_multiply p_target (np_log p_qbm) ;;
  Ok (re (cneg (np_sum prod))).

(** ** Line 474 on binary64 numbers

    The same expression with the IEEE binary64 operations (round to
    nearest, ties to even) on the two parts of every complex number.
    The logarithm is not one of these operations: it is an argument,
    the function [np.log] computes on a complex double. *)

Record complex_b64 : Type := Cx64 { re64 : float; im64 : float }.

Definition of_float_b64 (x : float) : complex_b64 := Cx64 x PrimFloat.zero.

Definition cadd_b64 (z w : complex_b64) : complex_b64 :=
  Cx64 (PrimFloat.add (re64 z) (re64 w)) (PrimFloat.add (im64 z) (im64 w)).

Definition cneg_b64 (z : complex_b64) : complex_b64 :=
  Cx64 (PrimFloat.opp (re64 z)) (PrimFloat.opp (im64 z)).

Definition cmul_b64 (z w : complex_b64) : complex_b64 :=
  Cx64 (PrimFloat.sub (PrimFloat.mul (re64 z) (re64 w))
                      (PrimFloat.mul (im64 z) (im64 w)))
       (PrimFloat.add (PrimFloat.mul (re64 z) (im64 w))
                      (PrimFloat.mul (im64 z) (re64 w))).

Definition loss_fn_b64 (clog64 : complex_b64 -> complex_b64)
           (p_target : list float) (p_qbm : list complex_b64) : result float :=
  prod <- broadcast cmul_b64 (map of_float_b64 p_target) (map clog64 p_qbm) ;;
  Ok (re64 (cneg_b64 (fold_left cadd_b64 prod (of_float_b64 PrimFloat.zero)))).

(** [np.log] at the four doubles 0.075, 0.2, 0.325 and 0.4, in this
    order: the doubles nearest to the logarithms
    (-2.5902671654458267, -1.6094379124341003, -1.1239300966523995 and
    -0.916290731874155), with a zero imaginary part. *)
Definition np_log_table (z : complex_b64) : complex_b64 :=
  let x := re64 z in
  Cx64 (if PrimFloat.eqb x 0x1.3333333333333p-4
        then (-0x1.4b8ddfddbf088p+1)%float
        else if PrimFloat.eqb x 0x1.999999999999ap-3
        then (-0x1.9c041f7ed8d33p+0)%float
        else if PrimFloat.eqb x 0x1.4cccccccccccdp-2
        then (-0x1.1fb9e2001cb78p+0)%float
        else if PrimFloat.eqb x 0x1.999999999999ap-2
        then (-0x1.d5240f0e0e077p-1)%float
        else PrimFloat.nan)
       PrimFloat.zero.

(** ** The store: arrays and lists are heap objects, names hold references *)

Definition loc : Type := nat.
Definition heap : Type := list (list float64).

(** State and exceptions: a raise keeps the store reached so far. *)
Definition M (A : Type) : Type := heap -> result A * heap.

Definition mret {A : Type} (a : A) : M A := fun h => (Ok a, h).

Definition mbind {A B : Type} (m : M A) (k : A -> M B) : M B :=
  fun h => match m h with
           | (Ok a, h') => k a h'
           | (Err e, h') => (Err e, h')
           end.

Notation "x <~ m ;; k" := (mbind m (fun x => k))
  (at level 61, m at next level, right associativity) : py_scope.

Definition lift {A : Type} (r : result A) : M A := fun h => (r, h).

(** A new object: the store grows by one cell, nothing else changes. *)
Definition alloc (v : list float64) : M loc :=
  fun h => (Ok (length h), h ++ [v]).

(** Reading through a reference. *)
Definition deref (l : loc) : M (list float64) :=
  fun h => match nth_error h l with
           | Some v => (Ok v, h)
           | None => (Err (Raised "dangling reference"%string), h)
           end.

(** ** The specification's words for the loss

    The cross-entropy [-sum_i target_i * log(trained_i)] on real numbers,
    over all indices and over the indices where the target is positive. *)

Definition Rsum (l : list R) : R := fold_right Rplus 0%R l.

Definition cross_entropy (target trained : list R) : R :=
  (- Rsum (map (fun p => fst p * ln (snd p)) (combine target trained)))%R.

Definition in_support (p : R * R) : bool :=
  if Rlt_dec 0 (fst p) then true else false.

Definition cross_entropy_on_support (target trained : list R) : R :=
  (- Rsum (map (fun p => fst p * ln (snd p))
               (filter in_support (combine target trained))))%R.

(** A real probability as the entry of a density-matrix diagonal. *)
Definition probability (x : R) : complex128 := of_float (Finite x).

(** [x[sigma]]: an array read through a list of indices. *)
Definition reindex {A : Type} (sigma : list nat) (xs : list A) (d : A) : list A :=
  map (fun i => nth i xs d) sigma.

(** A monadic computation that leaves every existing object as it is. *)
Definition grows {A : Type} (m : M A) : Prop :=
  forall h, exists ext, snd (m h) = h ++ ext.

(** ** Cell 3: the wiring of the ansatz

    [int(x)] on a Python float truncates towards zero; [nan] and the
    infinities raise. *)
Definition py_int (x : float64) : result Z :=
  match x with
  | Finite r =>
      Ok (if Rle_dec 0 r then Int_part r else (- Int_part (- r))%Z)
  | NaN => Err ValueError
  | PInf | NInf => Err (Raised "OverflowError")
  end.

(** Line 127: [[[i+1, i] for i in range(H.num_qubits - 1)]]. *)
Definition entangler_map (num_qubits : Z) : list (list Z) :=
  map (fun i => [i + 1; i]%Z) (py_range 0 (num_qubits - 1)).

(** Lines 130-131: the (control, target) index pairs of the [ansatz.cx]
    calls, [qr[i]] and [qr[i + int(len(qr)/2)]] for [i] in
    [range(int(len(qr)/2))], for a register of [len_qr] qubits. *)
Definition cx_pairs (len_qr : nat) : result (list (Z * Z)) :=
  half_f <- py_truediv (float_of_int (Z.of_nat len_qr)) (float_of_int 2) ;;
  half <- py_int half_f ;;
  Ok (map (fun i => (i, i + half)%Z) (py_range 0 half)).

(** ** Lines 597-598: the L1 distance of the trained distribution

    [np.linalg.norm(p_target - p_qbm, ord = 1)]: the list [p_target] is
    subtracted through [np.subtract], and the norm of order 1 of a vector
    is the sum of the moduli of its entries. *)
Definition csub (z w : complex128) : complex128 :=
  Cx (fsub (re z) (re w)) (fsub (im z) (im w)).

Definition cabs (z : complex128) : float64 := fhypot (re z) (im z).

Definition l1_norm (p_target : list float64) (p_qbm : list complex128)
  : result float64 :=
  diff <- broadcast csub (map of_float p_target) p_qbm ;;
  Ok (fold_left fadd (map cabs diff) (Finite 0)).

(** ** Real-number counterparts used in the statements *)

(** The Shannon entropy [-sum_i p_i * log(p_i)], with [0 * log 0 = 0]. *)
Definition entropy (p : list R) : R :=
  (- Rsum (map (fun x => x * ln x) p))%R.

(** [sum_i |p_i - q_i|]. *)
Definition l1_distance (p q : list R) : R :=
  Rsum (map (fun x => Rabs (fst x - snd x)) (combine p q)).

(** ** Module-level state

    The numbers and arrays bound at module level that the two functions
    read when they run. *)
Record globals : Type := {
  t : float64;                       (* cell 2: t = 1/(2*k_BT) *)
  num_time_steps : Z;                (* line 352 *)
  time_steps : list float64;         (* line 353 *)
  param_values_init : list float64;  (* cell 3 *)
  p_target : list float64            (* line 442 *)
}.

(** ** Stand-ins for the collaborators

    A notebook with one ansatz parameter whose qiskit objects carry no
    information: the natural-gradient evaluation returns a fixed
    direction, the simulator a fixed diagonal. *)

Definition one_parameter (_ : unit) : list nat := [0%nat].

Definition convert_ok (_ : unit) (_ : list nat) : result unit := Ok tt.

(** A conversion that raises, as qiskit's does on an operator it cannot
    differentiate. *)
Definition convert_raise (e : exn) (_ : unit) (_ : list nat) : result unit :=
  Err e.

Definition eval_const (direction : list complex128)
           (_ : unit) (_ : list (nat * float64)) : result (list complex128) :=
  Ok direction.

Definition eval_raise (e : exn)
           (_ : unit) (_ : list (nat * float64)) : result (list complex128) :=
  Err e.

Definition measurement_ok (_ : unit) (_ : list (nat * float64)) (_ : unit)
  : result unit := Ok tt.

Definition diagonal_const (diagonal : list complex128)
           (_ : unit) (_ : list (nat * float64)) (_ : list Z)
  : result (list complex128) := Ok diagonal.

(** A target and a trained distribution on four outcomes, in binary64:
    [0.125, 0.125, 0.25, 0.5] and [0.075, 0.325, 0.4, 0.2]. *)
Definition target_b64 : list float :=
  [0x1p-3; 0x1p-3; 0x1p-2; 0x1p-1]%float.

Definition trained_b64 : list complex_b64 :=
  map of_float_b64
      [0x1.3333333333333p-4; 0x1.4cccccccccccdp-2;
       0x1.999999999999ap-2; 0x1.999999999999ap-3]%float.

(** The grid of line 353 for [t = 0.5] and ten points. *)
Definition grid10 : list float64 :=
  match np_linspace (Finite 0) (Finite 0.5) 10 with
  | Ok steps => steps
  | Err _ => []
  end.

(** The numbers of the notebook, with [num_time_steps] left open. *)
Definition notebook (n : Z) : globals :=
  {| t := Finite 0.5;
     num_time_steps := n;
     time_steps := grid10;
     param_values_init := [Finite 0];
     p_target := [Finite 0.5; Finite 0; Finite 0; Finite 0.5] |}.

(** Another module state with the same [t] and [num_time_steps]. *)
Definition other_notebook : globals :=
  {| t := Finite 0.5;
     num_time_steps := 10;
     time_steps := [];
     param_values_init := [NaN; PInf];
     p_target := [] |}.

(** ** The notebook *)

Section Notebook.

(** qiskit's objects are opaque to the notebook. *)
Variables Param Operator Hamiltonian Ansatz AnsatzOp NatGrad : Type.

(** [ansatz.ordered_parameters] *)
Variable ordered_parameters : Ansatz -> list Param.

(** [NaturalGradient().convert(op, params, method = 'lin_comb',
    regularization = 'ridge')] *)
Variable NaturalGradient_convert :
  Operator -> list Param -> result NatGrad.

(** [nat_grad.assign_parameters(param_dict).eval()]; the dictionary
    [dict(zip(keys, values))] is passed as its key/value pairs. *)
Variable NatGrad_eval :
  NatGrad -> list (Param * float64) -> result (list complex128).

(** [~StateFn(H.assign_parameters(dict(zip([a, b, c], coeffs)))) @ ansatz_op] *)
Variable measurement :
  Hamiltonian -> list (Param * float64) -> AnsatzOp -> result Operator.

(** [np.diag(partial_trace(ansatz_op.assign_parameters(param_dict)
    .eval().primitive, [0, 1]).data)] *)
Variable reduced_diagonal :
  AnsatzOp -> list (Param * float64) -> list Z -> result (list complex128).

(** The module-level names bound to qiskit objects. *)
Variable H : Hamiltonian.            (* line 439 *)
Variable abc : list Param.           (* [a, b, c], lines 434-436 *)
Variable ansatz : Ansatz.            (* line 128 *)
Variable ansatz_op : AnsatzOp.       (* line 243 *)

(** *** Lines 315-319: one pass through the loop body *)
Definition euler_update (g : globals) (ansatz0 : Ansatz) (nat_grad : NatGrad)
           (param_values : list float64) : result (list float64) :=
  let param_dict := combine (ordered_parameters ansatz0) param_values in
  r <- NatGrad_eval nat_grad param_dict ;;
  let nat_grad_result := np_real r in
  step_size <- py_truediv (t g) (float_of_int (num_time_steps g)) ;;
  (* the second [np.real] is applied to a real array and returns it *)
  np_subtract param_values (scalar_mul step_size nat_grad_result).

(** *** Lines 314-321: [for step in time_steps: ...; return param_values] *)
Fixpoint propagate (g : globals) (ansatz0 : Ansatz) (nat_grad : NatGrad)
         (steps : list float64) (param_values : list float64)
  : result (list float64) :=
  match steps with
  | [] => Ok param_values
  | _ :: rest =>
      param_values' <- euler_update g ansatz0 nat_grad param_values ;;
      propagate g ansatz0 nat_grad rest param_values'
  end.

(** *** Lines 308-321 *)
Definition get_gibbs_state_params (g : globals) (op : Operator) (ansatz0 : Ansatz)
           (param_values : list float64) (steps : list float64)
  : result (list float64) :=
  nat_grad <- NaturalGradient_convert op (ordered_parameters ansatz0) ;;
  propagate g ansatz0 nat_grad steps param_values.

(** *** Lines 463-476.  [print] is left out. *)
Definition loss (g : globals) (H_coeffs : list float64) : result float64 :=
  op <- measurement H (combine abc H_coeffs) ansatz_op ;;
  param_values <-
    get_gibbs_state_params g op ansatz (param_values_init g) (time_steps g) ;;
  p_qbm <- reduced_diagonal ansatz_op
             (combine (ordered_parameters ansatz) param_values) [0; 1]%Z ;;
  loss_fn (p_target g) p_qbm.

(** *** The same two functions on the store

    [param_values] is a reference.  Each pass reads the object it
    points to, builds [list(np.subtract(...))] as a new object and
    rebinds the local name to it; no statement writes to an existing
    object (the in-place [param_values -= ...] is commented out in the
    source). *)
Fixpoint propagate_st (g : globals) (ansatz0 : Ansatz) (nat_grad : NatGrad)
         (steps : list float64) (param_values : loc) : M loc :=
  match steps with
  | [] => mret param_values
  | _ :: rest =>
      v <~ deref param_values ;;
      v' <~ lift (euler_update g ansatz0 nat_grad v) ;;
      param_values' <~ alloc v' ;;
      propagate_st g ansatz0 nat_grad rest param_values'
  end.

Definition get_gibbs_state_params_st (g : globals) (op : Operator) (ansatz0 : Ansatz)
           (param_values : loc) (steps : list float64) : M loc :=
  nat_grad <~ lift (NaturalGradient_convert op (ordered_parameters ansatz0)) ;;
  propagate_st g ansatz0 nat_grad steps param_values.

(** [loss] with the module-level [param_values_init] held at [init]. *)
Definition loss_st (g : globals) (init : loc) (H_coeffs : list float64) : M float64 :=
  op <~ lift (measurement H (combine abc H_coeffs) ansatz_op) ;;
  l <~ get_gibbs_state_params_st g op ansatz init (time_steps g) ;;
  param_values <~ deref l ;;
  p_qbm <~ lift (reduced_diagonal ansatz_op
             (combine (ordered_parameters ansatz) param_values) [0; 1]%Z) ;;
  lift (loss_fn (p_target g) p_qbm).

(** The vector a returned reference points to in the final store. *)
Definition value_of (r : result loc * heap) : result (list float64) :=
  match r with
  | (Ok l, h) =>
      match nth_error h l with
      | Some v => Ok v
      | None => Err (Raised "dangling reference"%string)
      end
  | (Err e, _) => Err e
  end.

(* ================================================================== *)
(** * Part II: properties *)
(* ================================================================== *)

(** ** The error monad *)

Lemma bind_ret_r {A : Type} (m : result A) : (x <- m ;; Ok x) = m.
Proof. destruct m; reflexivity. Qed.

Lemma bind_ext {A B : Type} (m : result A) (k k' : A -> result B) :
  (forall a, k a = k' a) -> bind m k = bind m k'.
Proof. intros E. destruct m; simpl; auto. Qed.

Lemma iterM_ext {A : Type} (f f' : A -> result A) :
  (forall a, f a = f' a) -> forall n x, iterM n f x = iterM n f' x.
Proof.
  intros E n. induction n as [|n IH]; intros x; simpl; [reflexivity|].
  rewrite E. apply bind_ext. exact IH.
Qed.

(** A step that returns its argument can be repeated at will. *)
Lemma iterM_fixpoint {A : Type} (f : A -> result A) (x : A) :
  f x = Ok x -> forall n, iterM n f x = Ok x.
Proof.
  intros E n. induction n as [|n IH]; simpl; [reflexivity|].
  rewrite E. exact IH.
Qed.

(** ** Arithmetic of doubles *)

Lemma fadd_comm (x y : float64) : fadd x y = fadd y x.
Proof. destruct x, y; simpl; try reflexivity; f_equal; lra. Qed.

Lemma fadd_assoc (x y z : float64) : fadd x (fadd y z) = fadd (fadd x y) z.
Proof. destruct x, y, z; simpl; try reflexivity; f_equal; lra. Qed.

Lemma fadd_nan_r (x : float64) : fadd x NaN = NaN.
Proof. destruct x; reflexivity. Qed.

Lemma fsub_nan_r (x : float64) : fsub x NaN = NaN.
Proof. destruct x; reflexivity. Qed.

Lemma fmul_nan_r (x : float64) : fmul x NaN = NaN.
Proof. destruct x; reflexivity. Qed.

Lemma scale_inf_zero (b : bool) : scale_inf 0 b = NaN.
Proof.
  unfold scale_inf. destruct (total_order_T 0 0) as [[L|E]|G]; try reflexivity; lra.
Qed.

(** Subtracting a finite multiple of zero changes no double, special
    values included. *)
Lemma fsub_finite_times_zero (x : float64) (h : R) :
  fsub x (fmul (Finite h) (Finite 0)) = x.
Proof. destruct x; simpl; try reflexivity. f_equal. lra. Qed.

Lemma cadd_comm (z w : complex128) : cadd z w = cadd w z.
Proof. unfold cadd. f_equal; apply fadd_comm. Qed.

Lemma cadd_assoc (u z w : complex128) : cadd u (cadd z w) = cadd (cadd u z) w.
Proof. unfold cadd. simpl. f_equal; apply fadd_assoc. Qed.

(** ** Arrays *)

Lemma zip_with_length {A B C : Type} (f : A -> B -> C) (xs : list A) (ys : list B) :
  length xs = length ys -> length (zip_with f xs ys) = length xs.
Proof.
  revert ys. induction xs as [|x xs IH]; intros [|y ys] E; simpl in *;
    try reflexivity; try discriminate.
  f_equal. apply IH. congruence.
Qed.

Lemma zip_with_nth_error {A B C : Type} (f : A -> B -> C) (xs : list A) (ys : list B)
      (i : nat) (x : A) (y : B) :
  nth_error xs i = Some x -> nth_error ys i = Some y ->
  nth_error (zip_with f xs ys) i = Some (f x y).
Proof.
  revert xs ys. induction i as [|i IH]; intros [|x' xs] [|y' ys] Hx Hy;
    simpl in *; try discriminate.
  - congruence.
  - eauto.
Qed.

Lemma broadcast_same_length {A B C : Type} (f : A -> B -> C) (xs : list A) (ys : list B) :
  length xs = length ys -> broadcast f xs ys = Ok (zip_with f xs ys).
Proof. intros E. unfold broadcast. rewrite E, Nat.eqb_refl. reflexivity. Qed.

Lemma zip_with_repeat_r {A B : Type} (f : A -> B -> A) (b : B) (xs : list A) :
  (forall a, f a b = a) -> zip_with f xs (repeat b (length xs)) = xs.
Proof.
  intros E. induction xs as [|x xs IH]; simpl; [reflexivity|].
  rewrite E, IH. reflexivity.
Qed.

(** ** Cell 3 *)

Lemma half_pi_not_zero : half_pi <> Finite 0.
Proof.
  unfold half_pi. intros E. injection E as E. pose proof PI_RGT_0. lra.
Qed.

(** C9.  With depth 1 and 4 qubits the initial vector has 2*4*(1+1) = 16
    entries; the loop runs over range(8, 10), so exactly the entries 8
    and 9 are pi/2 and every other entry is 0. *)
Theorem param_values_init_depth1_4qubits :
  exists v : list float64,
    Cell3.param_values_init 4 1 = Ok v /\
    length v = (2 * 4 * (1 + 1))%nat /\
    py_range (2 * 4 * 1) (Z.of_nat (length v) - 4 - 2) = [8; 9]%Z /\
    (forall i, (i < 16)%nat ->
       (nth i v NaN = Finite (PI / 2) <-> i = 8%nat \/ i = 9%nat)) /\
    (forall i, (i < 16)%nat -> i <> 8%nat -> i <> 9%nat ->
       nth i v NaN = Finite 0).
Proof.
  exists (repeat (Finite 0) 8 ++ [half_pi; half_pi] ++ repeat (Finite 0) 6).
  split; [reflexivity|]. split; [reflexivity|]. split; [reflexivity|].
  assert (Z0 : Finite 0 <> Finite (PI / 2))
    by (intros E; apply half_pi_not_zero; symmetry; exact E).
  split.
  - intros i Hi.
    do 16 (destruct i as [|i]; [simpl; split;
      [ intros E; first [ now left | now right | contradiction (Z0 E) ]
      | intros [E|E]; first [ discriminate E | reflexivity ] ] |]).
    lia.
  - intros i Hi H8 H9.
    do 16 (destruct i as [|i]; [first [ reflexivity | contradiction ] |]).
    lia.
Qed.

(** ** The integrator as an iteration *)

Lemma propagate_iterM (g : globals) (ansatz0 : Ansatz) (nat_grad : NatGrad)
      (steps : list float64) :
  forall param_values,
    propagate g ansatz0 nat_grad steps param_values =
    iterM (length steps) (euler_update g ansatz0 nat_grad) param_values.
Proof.
  induction steps as [|s rest IH]; intros pv; simpl; [reflexivity|].
  apply bind_ext. exact IH.
Qed.

Lemma propagate_app (g : globals) (ansatz0 : Ansatz) (nat_grad : NatGrad)
      (pre post : list float64) :
  forall param_values,
    propagate g ansatz0 nat_grad (pre ++ post) param_values =
    (p <- propagate g ansatz0 nat_grad pre param_values ;;
     propagate g ansatz0 nat_grad post p).
Proof.
  induction pre as [|s pre IH]; intros pv; simpl; [reflexivity|].
  destruct (euler_update g ansatz0 nat_grad pv) as [pv'|e]; simpl; auto.
Qed.

Lemma get_gibbs_state_params_iterM (g : globals) (op : Operator)
      (ansatz0 : Ansatz) (param_values steps : list float64) :
  get_gibbs_state_params g op ansatz0 param_values steps =
  (nat_grad <- NaturalGradient_convert op (ordered_parameters ansatz0) ;;
   iterM (length steps) (euler_update g ansatz0 nat_grad) param_values).
Proof.
  unfold get_gibbs_state_params. apply bind_ext. intros ng. apply propagate_iterM.
Qed.

(** C2.  On a grid of T points the integrator returns the T-fold
    composition of the Euler update, each update applied to the vector
    the previous one produced; on a grid of one point it returns the
    result of a single update. *)
Theorem get_gibbs_state_params_T_updates
        (g : globals) (op : Operator) (ansatz0 : Ansatz)
        (param_values : list float64) :
  (forall steps : list float64,
     get_gibbs_state_params g op ansatz0 param_values steps =
     (nat_grad <- NaturalGradient_convert op (ordered_parameters ansatz0) ;;
      iterM (length steps) (euler_update g ansatz0 nat_grad) param_values)) /\
  (forall s : float64,
     get_gibbs_state_params g op ansatz0 param_values [s] =
     (nat_grad <- NaturalGradient_convert op (ordered_parameters ansatz0) ;;
      euler_update g ansatz0 nat_grad param_values)).
Proof.
  split.
  - intros steps. apply get_gibbs_state_params_iterM.
  - intros s. unfold get_gibbs_state_params.
    apply bind_ext. intros ng. simpl. apply bind_ret_r.
Qed.

(** X4.  The loop variable is never read: two grids with the same number
    of points give the same result, whatever their time values. *)
Lemma grid_values_are_not_read (g : globals) (op : Operator) (ansatz0 : Ansatz)
      (param_values steps steps' : list float64) :
  length steps = length steps' ->
  get_gibbs_state_params g op ansatz0 param_values steps =
  get_gibbs_state_params g op ansatz0 param_values steps'.
Proof.
  intros E. rewrite !get_gibbs_state_params_iterM, E. reflexivity.
Qed.


(** ** A zero direction *)

(** C5, as the code has it.  The function is given no Hamiltonian: it
    sees the operator through the conversion and the evaluation of the
    natural gradient only.  When the conversion of line 311 returns, the
    direction evaluated at the initial parameter vector is the zero
    vector, and the step size t/num_time_steps is a finite number
    ([num_time_steps] an int below [2 ^ 53] in absolute value), the
    integrator returns the initial vector, whatever the vector and the
    time grid: [x - h * 0] is [x] for every double [x], the infinities
    and [nan] included. *)
Theorem zero_direction_leaves_params_unchanged
        (g : globals) (op : Operator) (ansatz0 : Ansatz) (nat_grad : NatGrad)
        (param_values steps : list float64) (r : list complex128) (h : R) :
  NaturalGradient_convert op (ordered_parameters ansatz0) = Ok nat_grad ->
  NatGrad_eval nat_grad (combine (ordered_parameters ansatz0) param_values) = Ok r ->
  np_real r = repeat (Finite 0) (length param_values) ->
  (Z.abs (num_time_steps g) < 2 ^ 53)%Z ->
  py_truediv (t g) (float_of_int (num_time_steps g)) = Ok (Finite h) ->
  get_gibbs_state_params g op ansatz0 param_values steps = Ok param_values.
Proof.
  intros Hconv Heval Hzero _ Hstep.
  unfold get_gibbs_state_params. rewrite Hconv. cbn [bind].
  rewrite propagate_iterM. apply iterM_fixpoint.
  unfold euler_update. rewrite Heval. cbn [bind]. rewrite Hstep. cbn [bind].
  rewrite Hzero. unfold np_subtract, scalar_mul. rewrite map_repeat.
  rewrite broadcast_same_length by (rewrite repeat_length; reflexivity).
  f_equal. apply zip_with_repeat_r. intros a. apply fsub_finite_times_zero.
Qed.

(** ** The step size and the grid *)

Lemma set_nth_length {A : Type} (i : nat) (v : A) (l : list A) :
  length (set_nth i v l) = length l.
Proof.
  revert i. induction l as [|x l IH]; intros [|i]; simpl; auto.
Qed.

Lemma nth_set_nth_same {A : Type} (i : nat) (v d : A) (l : list A) :
  (i < length l)%nat -> nth i (set_nth i v l) d = v.
Proof.
  revert i. induction l as [|x l IH]; intros [|i] Hi; simpl in *; try lia.
  - reflexivity.
  - apply IH. lia.
Qed.

Lemma nth_set_nth_other {A : Type} (i j : nat) (v d : A) (l : list A) :
  i <> j -> nth i (set_nth j v l) d = nth i l d.
Proof.
  revert i j. induction l as [|x l IH]; intros [|i] [|j] Hij; simpl;
    try reflexivity; try congruence.
  apply IH. congruence.
Qed.

Lemma nth_map_seq {A : Type} (f : nat -> A) (n i : nat) (d : A) :
  (i < n)%nat -> nth i (map f (seq 0 n)) d = f i.
Proof.
  intros Hi. rewrite (nth_indep _ d (f 0%nat)) by (rewrite length_map, length_seq; exact Hi).
  rewrite map_nth. rewrite seq_nth by exact Hi. reflexivity.
Qed.

Lemma py_truediv_finite (a : R) (n : Z) :
  n <> 0%Z -> py_truediv (Finite a) (float_of_int n) = Ok (Finite (a / IZR n)).
Proof.
  intros Hn. unfold py_truediv, float_of_int, fdiv.
  destruct (Req_dec_T (IZR n) 0) as [E|_].
  - exfalso. apply Hn. apply eq_IZR. exact E.
  - reflexivity.
Qed.

Lemma np_linspace_length (start stop : float64) (num : Z) (steps : list float64) :
  np_linspace start stop num = Ok steps -> length steps = Z.to_nat num.
Proof.
  unfold np_linspace. destruct (num <? 0)%Z; [discriminate|].
  intros E. injection E as <-.
  destruct (1 <? num)%Z; [rewrite set_nth_length|];
    destruct (0 <? num - 1)%Z; rewrite length_map, length_map, length_seq; reflexivity.
Qed.

(** One pass of the loop, entry by entry: with a direction that has one
    entry per parameter, entry [i] of the new vector is entry [i] of
    the old one minus the step size times the real part of entry [i] of
    the direction. *)
Lemma euler_update_entries (g : globals) (ansatz0 : Ansatz) (nat_grad : NatGrad)
      (p : list float64) (r : list complex128) (h : float64) :
  py_truediv (t g) (float_of_int (num_time_steps g)) = Ok h ->
  NatGrad_eval nat_grad (combine (ordered_parameters ansatz0) p) = Ok r ->
  length r = length p ->
  exists p',
    euler_update g ansatz0 nat_grad p = Ok p' /\
    length p' = length p /\
    forall i x z, nth_error p i = Some x -> nth_error r i = Some z ->
      nth_error p' i = Some (fsub x (fmul h (re z))).
Proof.
  intros Hh Hev Hlen. unfold euler_update. rewrite Hev. cbn [bind].
  rewrite Hh. cbn [bind]. unfold np_subtract, scalar_mul, np_real.
  rewrite broadcast_same_length by (rewrite !length_map; symmetry; exact Hlen).
  eexists. split; [reflexivity|]. split.
  - apply zip_with_length. rewrite !length_map. symmetry. exact Hlen.
  - intros i x z Hx Hz. apply zip_with_nth_error; [exact Hx|].
    rewrite map_map, nth_error_map, Hz. reflexivity.
Qed.

(** C1, as the code has it.  The step size of every Euler update is
    [t / num_time_steps], computed from the two module-level names, in
    every call and whatever grid the call is given: the update that
    follows any prefix [pre] of a grid takes the vector [p] reached
    there to the vector whose entry [i] is
    [p_i - (t / num_time_steps) * re(direction_i)], the direction being
    the natural gradient at [p].  [num_time_steps] is a non-zero int
    below [2 ^ 53] in absolute value.  The step size is the horizon
    divided by the number of grid points exactly when the grid has
    [num_time_steps] points, as the grid of the notebook,
    [np.linspace(0, t, num_time_steps)], has.  It is not the spacing
    [t / (num_time_steps - 1)] of that grid: for [2 <= num_time_steps
    <= 2 ^ 32] and [|t| >= 2 ^ -512] the two quotients are different
    numbers (and too far apart for rounding to merge them). *)
Theorem every_update_subtracts_t_over_num_time_steps
        (g : globals) (op : Operator) (ansatz0 : Ansatz) (nat_grad : NatGrad)
        (param_values pre : list float64) (s : float64)
        (p : list float64) (r : list complex128) (tau : R) :
  t g = Finite tau ->
  num_time_steps g <> 0%Z ->
  (Z.abs (num_time_steps g) < 2 ^ 53)%Z ->
  NaturalGradient_convert op (ordered_parameters ansatz0) = Ok nat_grad ->
  get_gibbs_state_params g op ansatz0 param_values pre = Ok p ->
  NatGrad_eval nat_grad (combine (ordered_parameters ansatz0) p) = Ok r ->
  length r = length p ->
  (exists p',
     (forall post,
        get_gibbs_state_params g op ansatz0 param_values (pre ++ s :: post) =
        propagate g ansatz0 nat_grad post p') /\
     length p' = length p /\
     forall i x z, nth_error p i = Some x -> nth_error r i = Some z ->
       nth_error p' i =
       Some (fsub x (fmul (Finite (tau / IZR (num_time_steps g))) (re z)))) /\
  (forall steps : list float64,
     Z.of_nat (length steps) = num_time_steps g ->
     (tau / IZR (num_time_steps g) = tau / INR (length steps))%R) /\
  (forall grid, np_linspace (Finite 0) (t g) (num_time_steps g) = Ok grid ->
     Z.of_nat (length grid) = num_time_steps g) /\
  ((2 <= num_time_steps g <= 2 ^ 32)%Z -> (/ 2 ^ 512 <= Rabs tau)%R ->
   (tau / IZR (num_time_steps g) <> tau / (IZR (num_time_steps g) - 1))%R).
Proof.
  intros Ht Hn _ Hconv Hpre Hev Hlen.
  split; [|split; [|split]].
  - assert (Hh : py_truediv (t g) (float_of_int (num_time_steps g)) =
                 Ok (Finite (tau / IZR (num_time_steps g))))
      by (rewrite Ht; apply py_truediv_finite; exact Hn).
    destruct (euler_update_entries g ansatz0 nat_grad p r _ Hh Hev Hlen)
      as [p' [Hup [Hlen' Hent]]].
    exists p'. split; [|split; [exact Hlen'|exact Hent]].
    intros post. unfold get_gibbs_state_params in Hpre |- *.
    rewrite Hconv in Hpre |- *. cbn [bind] in Hpre |- *.
    rewrite propagate_app, Hpre. cbn [bind propagate]. rewrite Hup. reflexivity.
  - intros steps HZ. rewrite INR_IZR_INZ, HZ. reflexivity.
  - intros grid Hgrid.
    pose proof (np_linspace_length _ _ _ _ Hgrid) as Hl. rewrite Hl.
    apply Z2Nat.id. unfold np_linspace in Hgrid.
    destruct (Z.ltb_spec (num_time_steps g) 0) as [?|H0]; [discriminate|exact H0].
  - intros [H2 _] Htau E.
    assert (Hpos : (0 < / 2 ^ 512)%R) by (apply Rinv_0_lt_compat, pow_lt; lra).
    assert (Hne : tau <> 0%R).
    { intros ->. rewrite Rabs_R0 in Htau. lra. }
    assert (HR : (2 <= IZR (num_time_steps g))%R) by (apply IZR_le; exact H2).
    assert (E1 : (tau / IZR (num_time_steps g) *
                  (IZR (num_time_steps g) * (IZR (num_time_steps g) - 1))
                  = tau * IZR (num_time_steps g) - tau)%R) by (field; lra).
    assert (E2 : (tau / (IZR (num_time_steps g) - 1) *
                  (IZR (num_time_steps g) * (IZR (num_time_steps g) - 1))
                  = tau * IZR (num_time_steps g))%R) by (field; lra).
    rewrite E in E1. rewrite E1 in E2. lra.
Qed.

(** ** Numerical failures of the natural-gradient evaluation *)

(** One pass of the loop keeps the length of the vector, keeps a [nan]
    entry, and turns a [nan] entry of the direction into a [nan] entry of
    the new vector, when the direction has one entry per parameter. *)
Lemma euler_update_nan (g : globals) (ansatz0 : Ansatz) (nat_grad : NatGrad)
      (p p' : list float64) (r : list complex128) (i : nat) :
  NatGrad_eval nat_grad (combine (ordered_parameters ansatz0) p) = Ok r ->
  length r = length p ->
  euler_update g ansatz0 nat_grad p = Ok p' ->
  length p' = length p /\
  (nth_error p i = Some NaN -> nth_error p' i = Some NaN) /\
  (nth_error (np_real r) i = Some NaN -> nth_error p' i = Some NaN).
Proof.
  intros Heval Hlen Hup. unfold euler_update in Hup.
  rewrite Heval in Hup. cbn [bind] in Hup.
  destruct (py_truediv (t g) (float_of_int (num_time_steps g))) as [h|e];
    cbn [bind] in Hup; [|discriminate].
  assert (L : length p = length (scalar_mul h (np_real r)))
    by (unfold scalar_mul, np_real; rewrite !length_map; symmetry; exact Hlen).
  unfold np_subtract in Hup. rewrite (broadcast_same_length _ _ _ L) in Hup.
  injection Hup as <-.
  split; [apply zip_with_length; exact L|]. split.
  - intros Hp.
    assert (Hi : (i < length (scalar_mul h (np_real r)))%nat)
      by (rewrite <- L; apply nth_error_Some; congruence).
    destruct (nth_error (scalar_mul h (np_real r)) i) as [y|] eqn:Hy;
      [|apply nth_error_None in Hy; lia].
    rewrite (zip_with_nth_error fsub _ _ _ _ _ Hp Hy). reflexivity.
  - intros Hr.
    assert (Hi : (i < length p)%nat).
    { rewrite <- Hlen. unfold np_real in Hr.
      rewrite <- (length_map re). apply nth_error_Some. congruence. }
    destruct (nth_error p i) as [x|] eqn:Hx;
      [|apply nth_error_None in Hx; lia].
    assert (Hy : nth_error (scalar_mul h (np_real r)) i = Some (fmul h NaN))
      by (unfold scalar_mul; apply map_nth_error; exact Hr).
    rewrite (zip_with_nth_error fsub _ _ _ _ _ Hx Hy).
    rewrite fmul_nan_r, fsub_nan_r. reflexivity.
Qed.

Lemma propagate_nan_sticky (g : globals) (ansatz0 : Ansatz) (nat_grad : NatGrad)
      (i n : nat) (steps : list float64) :
  (forall q d,
     length q = n ->
     NatGrad_eval nat_grad (combine (ordered_parameters ansatz0) q) = Ok d ->
     length d = length q) ->
  forall p v,
    length p = n ->
    nth_error p i = Some NaN ->
    propagate g ansatz0 nat_grad steps p = Ok v ->
    nth_error v i = Some NaN.
Proof.
  intros Hshape. induction steps as [|s rest IH]; intros p v Hn Hp Hrun;
    simpl in Hrun.
  - injection Hrun as <-. exact Hp.
  - destruct (euler_update g ansatz0 nat_grad p) as [p'|e] eqn:Hup;
      cbn [bind] in Hrun; [|discriminate].
    assert (Hev : exists r, NatGrad_eval nat_grad
                              (combine (ordered_parameters ansatz0) p) = Ok r).
    { unfold euler_update in Hup.
      destruct (NatGrad_eval nat_grad (combine (ordered_parameters ansatz0) p)) as [r|e];
        [eauto|discriminate]. }
    destruct Hev as [r Hev].
    destruct (euler_update_nan g ansatz0 nat_grad p p' r i Hev (Hshape _ _ Hn Hev) Hup)
      as (Hlen & Hkeep & _).
    apply (IH p'); [congruence|apply Hkeep; exact Hp|exact Hrun].
Qed.

(** C4, as the code has it.  The integrator handles no numerical
    failure.  Let [p] be the vector reached after the grid points [pre].
    If the natural-gradient evaluation raises at [p], the call raises that
    same exception; if it returns a direction with a [nan] entry (and
    directions have one entry per parameter), every vector the call can
    return has [nan] at that entry.  [loss] passes an exception of the integrator on and
    substitutes no value for it. *)
Theorem numerical_failure_is_not_handled
        (g : globals) (op : Operator) (ansatz0 : Ansatz) (nat_grad : NatGrad)
        (pre post : list float64) (s : float64) (param_values p : list float64) :
  NaturalGradient_convert op (ordered_parameters ansatz0) = Ok nat_grad ->
  propagate g ansatz0 nat_grad pre param_values = Ok p ->
  (forall e,
     NatGrad_eval nat_grad (combine (ordered_parameters ansatz0) p) = Err e ->
     get_gibbs_state_params g op ansatz0 param_values (pre ++ s :: post) = Err e) /\
  (forall r i v,
     NatGrad_eval nat_grad (combine (ordered_parameters ansatz0) p) = Ok r ->
     nth_error (np_real r) i = Some NaN ->
     (forall q d,
        length q = length p ->
        NatGrad_eval nat_grad (combine (ordered_parameters ansatz0) q) = Ok d ->
        length d = length q) ->
     get_gibbs_state_params g op ansatz0 param_values (pre ++ s :: post) = Ok v ->
     nth_error v i = Some NaN) /\
  (forall H_coeffs op' e,
     measurement H (combine abc H_coeffs) ansatz_op = Ok op' ->
     get_gibbs_state_params g op' ansatz (param_values_init g) (time_steps g) = Err e ->
     loss g H_coeffs = Err e).
Proof.
  intros Hconv Hpre.
  assert (Hrun : get_gibbs_state_params g op ansatz0 param_values (pre ++ s :: post) =
                 (p' <- euler_update g ansatz0 nat_grad p ;;
                  propagate g ansatz0 nat_grad post p')).
  { unfold get_gibbs_state_params. rewrite Hconv. cbn [bind].
    rewrite propagate_app, Hpre. reflexivity. }
  split; [|split].
  - intros e He. rewrite Hrun. unfold euler_update. rewrite He. reflexivity.
  - intros r i v Hev Hnan Hshape Hv. rewrite Hrun in Hv.
    destruct (euler_update g ansatz0 nat_grad p) as [p'|e] eqn:Hup;
      cbn [bind] in Hv; [|discriminate].
    destruct (euler_update_nan g ansatz0 nat_grad p p' r i Hev
                               (Hshape _ _ eq_refl Hev) Hup)
      as (Hlen & _ & Hnew).
    exact (propagate_nan_sticky g ansatz0 nat_grad i (length p) post Hshape
                                p' v Hlen (Hnew Hnan) Hv).
  - intros H_coeffs op' e Hm He. unfold loss. rewrite Hm. cbn [bind].
    rewrite He. reflexivity.
Qed.

(** ** What the result depends on *)

Lemma euler_update_reads_step_globals (g1 g2 : globals) (ansatz0 : Ansatz)
      (nat_grad : NatGrad) (p : list float64) :
  t g1 = t g2 -> num_time_steps g1 = num_time_steps g2 ->
  euler_update g1 ansatz0 nat_grad p = euler_update g2 ansatz0 nat_grad p.
Proof. intros Ht Hn. unfold euler_update. rewrite Ht, Hn. reflexivity. Qed.

(** The function on the store computes what the function on values
    computes from the vector its argument points to. *)
Lemma propagate_st_value (g : globals) (ansatz0 : Ansatz) (nat_grad : NatGrad)
      (steps : list float64) :
  forall (l : loc) (h : heap) (v : list float64),
    nth_error h l = Some v ->
    value_of (propagate_st g ansatz0 nat_grad steps l h) =
    propagate g ansatz0 nat_grad steps v.
Proof.
  induction steps as [|s rest IH]; intros l h v Hl.
  - simpl. unfold mret. simpl. rewrite Hl. reflexivity.
  - cbn [propagate_st propagate]. unfold mbind at 1, deref. rewrite Hl.
    unfold mbind at 1, lift.
    destruct (euler_update g ansatz0 nat_grad v) as [v'|e]; cbn [bind]; [|reflexivity].
    unfold mbind at 1, alloc.
    apply IH. rewrite nth_error_app2 by lia. rewrite Nat.sub_diag. reflexivity.
Qed.

Lemma get_gibbs_state_params_st_value (g : globals) (op : Operator)
      (ansatz0 : Ansatz) (steps : list float64) (l : loc) (h : heap)
      (v : list float64) :
  nth_error h l = Some v ->
  value_of (get_gibbs_state_params_st g op ansatz0 l steps h) =
  get_gibbs_state_params g op ansatz0 v steps.
Proof.
  intros Hl. unfold get_gibbs_state_params_st, get_gibbs_state_params, mbind, lift.
  destruct (NaturalGradient_convert op (ordered_parameters ansatz0)) as [ng|e];
    cbn [bind]; [|reflexivity].
  apply propagate_st_value. exact Hl.
Qed.

(** C8, as the code has it.  Two calls with the same observable, ansatz,
    parameter values and time grid return the same result whenever the
    module-level [t] and [num_time_steps] have the same values at both
    calls; nothing else of the module-level state and nothing else in
    the store has an influence. *)
Theorem result_determined_by_arguments_and_step_globals
        (g1 g2 : globals) (op : Operator) (ansatz0 : Ansatz)
        (param_values steps : list float64)
        (h1 h2 : heap) (l1 l2 : loc) :
  t g1 = t g2 ->
  num_time_steps g1 = num_time_steps g2 ->
  nth_error h1 l1 = Some param_values ->
  nth_error h2 l2 = Some param_values ->
  get_gibbs_state_params g1 op ansatz0 param_values steps =
  get_gibbs_state_params g2 op ansatz0 param_values steps /\
  value_of (get_gibbs_state_params_st g1 op ansatz0 l1 steps h1) =
  value_of (get_gibbs_state_params_st g2 op ansatz0 l2 steps h2).
Proof.
  intros Ht Hn H1 H2.
  assert (E : get_gibbs_state_params g1 op ansatz0 param_values steps =
              get_gibbs_state_params g2 op ansatz0 param_values steps).
  { unfold get_gibbs_state_params. apply bind_ext. intros ng.
    rewrite !propagate_iterM. apply iterM_ext. intros p.
    apply euler_update_reads_step_globals; assumption. }
  split; [exact E|].
  rewrite (get_gibbs_state_params_st_value g1 op ansatz0 steps l1 h1 param_values H1).
  rewrite (get_gibbs_state_params_st_value g2 op ansatz0 steps l2 h2 param_values H2).
  exact E.
Qed.

(** ** The store only grows *)

Lemma grows_lift {A : Type} (r : result A) : grows (lift r).
Proof. intros h. exists []. simpl. rewrite app_nil_r. reflexivity. Qed.

Lemma grows_mret {A : Type} (a : A) : grows (mret a).
Proof. intros h. exists []. simpl. rewrite app_nil_r. reflexivity. Qed.

Lemma grows_deref (l : loc) : grows (deref l).
Proof.
  intros h. exists []. unfold deref. rewrite app_nil_r.
  destruct (nth_error h l); reflexivity.
Qed.

Lemma grows_alloc (v : list float64) : grows (alloc v).
Proof. intros h. exists [v]. reflexivity. Qed.

Lemma grows_mbind {A B : Type} (m : M A) (k : A -> M B) :
  grows m -> (forall a, grows (k a)) -> grows (mbind m k).
Proof.
  intros Hm Hk h. unfold mbind. destruct (Hm h) as [e1 E1].
  destruct (m h) as [[a|e] h']; simpl in E1; subst h'.
  - destruct (Hk a (h ++ e1)) as [e2 E2]. exists (e1 ++ e2).
    rewrite E2, app_assoc. reflexivity.
  - exists e1. reflexivity.
Qed.

Lemma grows_propagate_st (g : globals) (ansatz0 : Ansatz) (nat_grad : NatGrad)
      (steps : list float64) :
  forall l, grows (propagate_st g ansatz0 nat_grad steps l).
Proof.
  induction steps as [|s rest IH]; intros l; cbn [propagate_st].
  - apply grows_mret.
  - apply grows_mbind; [apply grows_deref|]. intros v.
    apply grows_mbind; [apply grows_lift|]. intros v'.
    apply grows_mbind; [apply grows_alloc|]. exact IH.
Qed.

Lemma grows_get_gibbs_state_params_st (g : globals) (op : Operator)
      (ansatz0 : Ansatz) (l : loc) (steps : list float64) :
  grows (get_gibbs_state_params_st g op ansatz0 l steps).
Proof.
  unfold get_gibbs_state_params_st.
  apply grows_mbind; [apply grows_lift|]. intros ng. apply grows_propagate_st.
Qed.

Lemma grows_loss_st (g : globals) (init : loc) (H_coeffs : list float64) :
  grows (loss_st g init H_coeffs).
Proof.
  unfold loss_st.
  apply grows_mbind; [apply grows_lift|]. intros op.
  apply grows_mbind; [apply grows_get_gibbs_state_params_st|]. intros l.
  apply grows_mbind; [apply grows_deref|]. intros v.
  apply grows_mbind; [apply grows_lift|]. intros d. apply grows_lift.
Qed.

Lemma grows_keeps {A : Type} (m : M A) (h : heap) (l : loc) (v : list float64) :
  grows m -> nth_error h l = Some v -> nth_error (snd (m h)) l = Some v.
Proof.
  intros Hm Hl. destruct (Hm h) as [ext E]. rewrite E.
  rewrite nth_error_app1 by (apply nth_error_Some; congruence). exact Hl.
Qed.

(** [loss] on the store returns what [loss] on values returns when the
    module-level [param_values_init] points to the vector [loss] starts
    from. *)
Lemma loss_st_value (g : globals) (init : loc) (H_coeffs : list float64) (h : heap) :
  nth_error h init = Some (param_values_init g) ->
  fst (loss_st g init H_coeffs h) = loss g H_coeffs.
Proof.
  intros Hinit. unfold loss_st, loss. unfold mbind at 1, lift at 1.
  destruct (measurement H (combine abc H_coeffs) ansatz_op) as [op|e];
    cbn [bind]; [|reflexivity].
  pose proof (get_gibbs_state_params_st_value g op ansatz (time_steps g)
                init h (param_values_init g) Hinit) as Hv.
  unfold mbind at 1.
  destruct (get_gibbs_state_params_st g op ansatz init (time_steps g) h)
    as [[l|e] h'].
  - unfold value_of in Hv. unfold mbind at 1, deref.
    destruct (nth_error h' l) as [v|].
    + rewrite <- Hv. cbn [bind]. unfold mbind, lift.
      destruct (reduced_diagonal ansatz_op (combine (ordered_parameters ansatz) v)
                                 [0%Z; 1%Z]); reflexivity.
    + rewrite <- Hv. reflexivity.
  - simpl in Hv. rewrite <- Hv. reflexivity.
Qed.

(** The reference the loop returns is its argument when the grid is empty
    and an object that did not exist before the call otherwise. *)
Lemma propagate_st_fresh (g : globals) (ansatz0 : Ansatz) (nat_grad : NatGrad)
      (steps : list float64) :
  forall (l : loc) (h : heap) (l' : loc),
    fst (propagate_st g ansatz0 nat_grad steps l h) = Ok l' ->
    (steps = [] /\ l' = l) \/ (length h <= l')%nat.
Proof.
  induction steps as [|s rest IH]; intros l h l' Hrun.
  - left. simpl in Hrun. injection Hrun as <-. split; reflexivity.
  - right. cbn [propagate_st] in Hrun. unfold mbind at 1, deref in Hrun.
    destruct (nth_error h l) as [v|]; [|discriminate].
    unfold mbind at 1, lift in Hrun.
    destruct (euler_update g ansatz0 nat_grad v) as [v'|e]; [|discriminate].
    unfold mbind at 1, alloc in Hrun.
    destruct (IH _ _ _ Hrun) as [[_ ->]|Hle]; [lia|].
    rewrite length_app in Hle. simpl in Hle. lia.
Qed.

(** C10.  [get_gibbs_state_params] writes to no existing object: every
    object of the store, the caller's parameter vector among them, holds
    after the call what it held before, whether the call returns or
    raises, and on a non-empty grid the list it returns is a new object.
    The same holds for [loss], so a loss evaluation that follows another
    one starts from the same initial vector and returns what it would
    have returned on the original store. *)
Theorem get_gibbs_state_params_never_mutates
        (g : globals) (op : Operator) (ansatz0 : Ansatz)
        (param_values : loc) (steps : list float64)
        (h : heap) (l : loc) (v : list float64) :
  nth_error h l = Some v ->
  nth_error (snd (get_gibbs_state_params_st g op ansatz0 param_values steps h)) l
    = Some v /\
  (forall l',
     fst (get_gibbs_state_params_st g op ansatz0 param_values steps h) = Ok l' ->
     (steps = [] /\ l' = param_values) \/ (length h <= l')%nat) /\
  (forall init H_coeffs,
     nth_error (snd (loss_st g init H_coeffs h)) l = Some v) /\
  (forall H_coeffs1 H_coeffs2,
     v = param_values_init g ->
     fst (loss_st g l H_coeffs2 (snd (loss_st g l H_coeffs1 h))) =
     loss g H_coeffs2).
Proof.
  intros Hl. split; [|split; [|split]].
  - apply grows_keeps; [apply grows_get_gibbs_state_params_st|exact Hl].
  - intros l' Hrun. unfold get_gibbs_state_params_st, mbind, lift in Hrun.
    destruct (NaturalGradient_convert op (ordered_parameters ansatz0)) as [ng|e];
      [|discriminate].
    exact (propagate_st_fresh g ansatz0 ng steps param_values h l' Hrun).
  - intros init c. apply grows_keeps; [apply grows_loss_st|exact Hl].
  - intros c1 c2 ->. apply loss_st_value.
    apply grows_keeps; [apply grows_loss_st|exact Hl].
Qed.

(** ** The cross-entropy *)

Lemma zip_with_map {A A' B B' C : Type} (f : A' -> B' -> C) (u : A -> A') (w : B -> B')
      (xs : list A) (ys : list B) :
  zip_with f (map u xs) (map w ys) =
  map (fun p => f (u (fst p)) (w (snd p))) (combine xs ys).
Proof.
  revert ys. induction xs as [|x xs IH]; intros [|y ys]; simpl; try reflexivity.
  f_equal. apply IH.
Qed.

(** With operands of equal length, the sum inside [loss_fn] runs over the
    entry pairs. *)
Lemma loss_fn_pairs (p_target : list float64) (p_qbm : list complex128) :
  length p_target = length p_qbm ->
  loss_fn p_target p_qbm =
  Ok (re (cneg (np_sum (map (fun p => cmul (of_float (fst p)) (clog (snd p)))
                            (combine p_target p_qbm))))).
Proof.
  intros E. unfold loss_fn, np_multiply, np_log.
  rewrite broadcast_same_length by (rewrite !length_map; exact E).
  cbn [bind]. rewrite zip_with_map. reflexivity.
Qed.

Lemma fold_left_cadd_perm (l l' : list complex128) :
  Permutation l l' -> forall z, fold_left cadd l z = fold_left cadd l' z.
Proof.
  induction 1 as [|x l l' _ IH|x y l|l l' l'' _ IH1 _ IH2]; intros z; simpl.
  - reflexivity.
  - apply IH.
  - f_equal. rewrite <- !cadd_assoc. f_equal. apply cadd_comm.
  - rewrite IH1. apply IH2.
Qed.

Lemma combine_map_same {A B C : Type} (u : A -> B) (w : A -> C) (l : list A) :
  combine (map u l) (map w l) = map (fun a => (u a, w a)) l.
Proof. induction l as [|a l IH]; simpl; [reflexivity|]. f_equal. exact IH. Qed.

Lemma map_nth_seq_id {A : Type} (l : list A) (d : A) :
  map (fun i => nth i l d) (seq 0 (length l)) = l.
Proof.
  apply (nth_ext _ _ d d).
  - rewrite length_map, length_seq. reflexivity.
  - intros n Hn. rewrite length_map, length_seq in Hn.
    exact (nth_map_seq (fun i => nth i l d) (length l) n d Hn).
Qed.

Lemma reindex_pairs {A B : Type} (sigma : list nat) (xs : list A) (ys : list B)
      (d : A) (d' : B) :
  length xs = length ys ->
  Permutation sigma (seq 0 (length xs)) ->
  Permutation (combine (reindex sigma xs d) (reindex sigma ys d')) (combine xs ys).
Proof.
  intros E P. unfold reindex. rewrite combine_map_same.
  rewrite (map_ext _ (fun i => nth i (combine xs ys) (d, d')))
    by (intros i; symmetry; apply combine_nth; exact E).
  assert (P' : Permutation sigma (seq 0 (length (combine xs ys))))
    by (rewrite length_combine, <- E, Nat.min_id; exact P).
  apply (Permutation_map (fun i => nth i (combine xs ys) (d, d'))) in P'.
  rewrite map_nth_seq_id in P'. exact P'.
Qed.

(** With exact additions the order of the terms does not matter:
    permuting the target and the trained distribution by the same
    permutation of the indices leaves the sum as it is.  This is a
    property of the real-number sum, not of its binary64 evaluation. *)
Lemma loss_fn_exact_sum_permutation_invariant
      (sigma : list nat) (p_target : list float64) (p_qbm : list complex128)
      (d : float64) (d' : complex128) :
  length p_target = length p_qbm ->
  Permutation sigma (seq 0 (length p_target)) ->
  loss_fn (reindex sigma p_target d) (reindex sigma p_qbm d') =
  loss_fn p_target p_qbm.
Proof.
  intros E P.
  rewrite loss_fn_pairs by (unfold reindex; rewrite !length_map; reflexivity).
  rewrite loss_fn_pairs by exact E.
  do 3 f_equal. unfold np_sum. apply fold_left_cadd_perm.
  apply Permutation_map. apply reindex_pairs; assumption.
Qed.

Lemma nth_zip_with {A B C : Type} (f : A -> B -> C) (xs : list A) (ys : list B)
      (d : A) (d' : B) (i : nat) :
  length xs = length ys ->
  nth i (zip_with f xs ys) (f d d') = f (nth i xs d) (nth i ys d').
Proof.
  revert ys i. induction xs as [|x xs IH]; intros [|y ys] [|i] E; simpl in *;
    try reflexivity; try discriminate.
  apply IH. congruence.
Qed.

Lemma map_reindex {A B : Type} (u : A -> B) (sigma : list nat) (xs : list A) (d : A) :
  map u (reindex sigma xs d) = reindex sigma (map u xs) (u d).
Proof.
  unfold reindex. rewrite map_map. apply map_ext. intros i.
  symmetry. apply map_nth.
Qed.

(** An entrywise operation on two arrays reindexed alike gives the
    reindexed array of the results. *)
Lemma broadcast_reindex {A B C : Type} (f : A -> B -> C) (sigma : list nat)
      (xs : list A) (ys : list B) (d : A) (d' : B) :
  length xs = length ys ->
  broadcast f (reindex sigma xs d) (reindex sigma ys d') =
  Ok (reindex sigma (zip_with f xs ys) (f d d')).
Proof.
  intros E.
  rewrite broadcast_same_length by (unfold reindex; rewrite !length_map; reflexivity).
  f_equal. unfold reindex. induction sigma as [|i sigma IH]; simpl; [reflexivity|].
  rewrite IH. f_equal. symmetry. apply nth_zip_with. exact E.
Qed.

Lemma reindex_permutation {A : Type} (sigma : list nat) (l : list A) (d : A) :
  Permutation sigma (seq 0 (length l)) -> Permutation (reindex sigma l d) l.
Proof.
  intros P. apply (Permutation_map (fun i => nth i l d)) in P.
  rewrite map_nth_seq_id in P. exact P.
Qed.


(** The logarithm of a positive probability and of a zero probability. *)
Lemma clog_positive (x : R) :
  (0 < x)%R -> clog (probability x) = Cx (Finite (ln x)) (Finite 0).
Proof.
  intros Hx. unfold clog, probability, of_float. cbn [re im fhypot fatan2].
  replace (x * x + 0 * 0)%R with (Rsqr x) by (unfold Rsqr; ring).
  rewrite sqrt_Rsqr by lra. unfold flog, Ratan2.
  destruct (total_order_T x 0) as [[L|Z]|G]; try lra.
  f_equal. f_equal. unfold Rdiv. rewrite Rmult_0_l. apply atan_0.
Qed.

Lemma clog_zero : clog (probability 0) = Cx NInf (Finite 0).
Proof.
  unfold clog, probability, of_float. cbn [re im fhypot fatan2].
  replace (0 * 0 + 0 * 0)%R with 0%R by ring. rewrite sqrt_0.
  unfold flog, Ratan2.
  destruct (total_order_T 0 0) as [[L|Z]|G]; try lra. reflexivity.
Qed.

Lemma cmul_target_log (t x : R) :
  (0 < x)%R ->
  cmul (of_float (Finite t)) (clog (probability x)) =
  Cx (Finite (t * ln x)) (Finite (t * 0 + 0 * ln x)).
Proof.
  intros Hx. rewrite clog_positive by exact Hx.
  unfold cmul, of_float, fsub. cbn [re im fmul fneg fadd]. f_equal. f_equal. ring.
Qed.

Lemma cmul_zero_neg_infinity (y : float64) :
  re (cmul (of_float (Finite 0)) (Cx NInf y)) = NaN.
Proof.
  unfold cmul, of_float. cbn [re im]. cbn [fmul]. rewrite scale_inf_zero. reflexivity.
Qed.

(** A sum of finite terms. *)
Lemma re_np_sum_finite (F : R * R -> complex128) (f : R * R -> R) (l : list (R * R)) :
  (forall p, In p l -> exists b, F p = Cx (Finite (f p)) (Finite b)) ->
  forall a b,
    exists b',
      fold_left cadd (map F l) (Cx (Finite a) (Finite b)) =
      Cx (Finite (a + Rsum (map f l))) (Finite b').
Proof.
  induction l as [|p l IH]; intros HF a b; simpl.
  - exists b. f_equal. f_equal. lra.
  - destruct (HF p (or_introl eq_refl)) as [bp Ep]. rewrite Ep.
    unfold cadd at 2. cbn [re im fadd].
    destruct (IH (fun q Hq => HF q (or_intror Hq)) (a + f p)%R (b + bp)%R) as [b' E'].
    exists b'. rewrite E'. f_equal. f_equal. ring.
Qed.

(** A [nan] met on the way stays in the sum. *)
Lemma re_fold_left_cadd_nan_acc (l : list complex128) :
  forall z, re z = NaN -> re (fold_left cadd l z) = NaN.
Proof.
  induction l as [|w l IH]; intros z Hz; simpl; [exact Hz|].
  apply IH. unfold cadd. cbn [re]. rewrite Hz. reflexivity.
Qed.

Lemma re_fold_left_cadd_nan (l : list complex128) (w : complex128) :
  In w l -> re w = NaN -> forall z, re (fold_left cadd l z) = NaN.
Proof.
  induction l as [|x l IH]; intros Hin Hw z; simpl; [contradiction|].
  destruct Hin as [->|Hin].
  - apply re_fold_left_cadd_nan_acc. unfold cadd. cbn [re].
    rewrite Hw. apply fadd_nan_r.
  - apply IH; assumption.
Qed.

Lemma cross_entropy_support (target trained : list R) :
  Forall (fun t => (0 <= t)%R) target ->
  cross_entropy target trained = cross_entropy_on_support target trained.
Proof.
  intros Hpos. unfold cross_entropy, cross_entropy_on_support. f_equal.
  revert trained. induction Hpos as [|t target Ht _ IH]; intros [|x trained];
    simpl; try reflexivity.
  unfold in_support at 1. cbn [fst].
  destruct (Rlt_dec 0 t) as [L|N]; simpl; rewrite IH; [reflexivity|].
  replace t with 0%R by lra. ring.
Qed.

(** C3, as the code has it.  For a target distribution and a trained
    distribution of the same length whose entries are positive at every
    index, the loss is the finite number
    [-sum_i target_i * log(trained_i)], the sum taken over all indices
    (the logarithm of every entry is computed); for a non-negative target
    this is the sum over the indices where the target is positive. *)
Theorem loss_fn_is_cross_entropy (target trained : list R) :
  length target = length trained ->
  Forall (fun x => (0 < x)%R) trained ->
  loss_fn (map Finite target) (map probability trained) =
    Ok (Finite (cross_entropy target trained)) /\
  (Forall (fun t => (0 <= t)%R) target ->
   loss_fn (map Finite target) (map probability trained) =
     Ok (Finite (cross_entropy_on_support target trained))).
Proof.
  intros E Hpos.
  assert (L : loss_fn (map Finite target) (map probability trained) =
              Ok (Finite (cross_entropy target trained))).
  { rewrite loss_fn_pairs by (rewrite !length_map; exact E).
    assert (Hc : combine (map Finite target) (map probability trained) =
                 map (fun p => (Finite (fst p), probability (snd p)))
                     (combine target trained)).
    { clear. revert trained. induction target as [|t ts IH]; intros [|x xs];
        simpl; try reflexivity. f_equal. apply IH. }
    rewrite Hc, map_map. cbn [fst snd]. unfold np_sum.
    destruct (re_np_sum_finite
                (fun p => cmul (of_float (Finite (fst p))) (clog (probability (snd p))))
                (fun p => (fst p * ln (snd p))%R)
                (combine target trained)) with (a := 0%R) (b := 0%R) as [b' Eb].
    - intros [t x] Hin. cbn [fst snd].
      exists (t * 0 + 0 * ln x)%R. apply cmul_target_log.
      apply in_combine_r in Hin. rewrite Forall_forall in Hpos. auto.
    - unfold of_float in Eb |- *. rewrite Eb. cbn [cneg re fneg]. f_equal. f_equal.
      unfold cross_entropy. ring. }
  split; [exact L|].
  intros Ht. rewrite L, (cross_entropy_support target trained Ht). reflexivity.
Qed.

(* ================================================================== *)
(** * Part II, continued: further properties of the notebook's code *)
(* ================================================================== *)

(** ** Cell 3 in general *)

Lemma in_py_range (j lo hi : Z) :
  In j (py_range lo hi) <-> (lo <= j < hi)%Z.
Proof.
  unfold py_range. rewrite in_map_iff. split.
  - intros [i [<- Hi]]. apply in_seq in Hi. lia.
  - intros Hj. exists (Z.to_nat (j - lo)). split; [lia|]. apply in_seq. lia.
Qed.

Lemma NoDup_map_injective {A B : Type} (f : A -> B) (l : list A) :
  (forall x y, f x = f y -> x = y) -> NoDup l -> NoDup (map f l).
Proof.
  intros Hinj. induction 1 as [|x l Hx _ IH]; simpl; constructor; [|exact IH].
  rewrite in_map_iff. intros [y [E Hy]]. apply Hinj in E. subst y. contradiction.
Qed.

Lemma NoDup_py_range (lo hi : Z) : NoDup (py_range lo hi).
Proof.
  unfold py_range. apply NoDup_map_injective; [intros x y E; lia|apply seq_NoDup].
Qed.

(** Writes at indices inside the array never raise. *)
Lemma fill_in_bounds (v : float64) (js : list Z) :
  forall arr,
    (forall j, In j js -> (0 <= j < Z.of_nat (length arr))%Z) ->
    fold_left (fun acc j => a <- acc ;; np_setitem a j v) js (Ok arr) =
    Ok (fold_left (fun a j => set_nth (Z.to_nat j) v a) js arr).
Proof.
  induction js as [|j js IH]; intros arr Hjs; simpl; [reflexivity|].
  assert (Hj : (0 <= j < Z.of_nat (length arr))%Z) by (apply Hjs; now left).
  unfold np_setitem at 2.
  destruct (Z.leb_spec 0 j) as [_|?]; [|lia].
  destruct (Z.ltb_spec j (Z.of_nat (length arr))) as [_|?]; [|lia].
  cbn [andb]. apply IH. intros j' Hj'. rewrite set_nth_length.
  apply Hjs. now right.
Qed.

Lemma nth_fill (v d : float64) (js : list Z) :
  forall (arr : list float64) (i : nat),
    (forall j, In j js -> (0 <= j)%Z) ->
    (i < length arr)%nat ->
    nth i (fold_left (fun a j => set_nth (Z.to_nat j) v a) js arr) d =
    if existsb (Z.eqb (Z.of_nat i)) js then v else nth i arr d.
Proof.
  induction js as [|j js IH]; intros arr i Hpos Hi; simpl; [reflexivity|].
  rewrite IH; [|intros j' Hj'; apply Hpos; now right|rewrite set_nth_length; exact Hi].
  destruct (existsb (Z.eqb (Z.of_nat i)) js); [rewrite orb_true_r; reflexivity|].
  rewrite orb_false_r.
  assert (H0 : (0 <= j)%Z) by (apply Hpos; now left).
  destruct (Z.eqb_spec (Z.of_nat i) j) as [E|N].
  - subst j. rewrite Nat2Z.id. apply nth_set_nth_same. exact Hi.
  - apply nth_set_nth_other. lia.
Qed.

(** X1.  For every qubit count and depth that are not negative, cell 3
    builds the initial vector without an index error; it has
    [2 * num_qubits * (depth + 1)] entries, and entry [i] is pi/2 exactly
    for [2 * num_qubits * depth <= i < 2 * num_qubits * depth +
    num_qubits - 2] and 0 elsewhere. *)
Theorem param_values_init_layout (num_qubits depth : Z) :
  (0 <= num_qubits)%Z -> (0 <= depth)%Z ->
  exists v : list float64,
    Cell3.param_values_init num_qubits depth = Ok v /\
    Z.of_nat (length v) = (2 * num_qubits * (depth + 1))%Z /\
    forall i : nat,
      (i < length v)%nat ->
      nth i v NaN =
      if ((2 * num_qubits * depth <=? Z.of_nat i) &&
          (Z.of_nat i <? 2 * num_qubits * depth + num_qubits - 2))%Z%bool
      then half_pi else Finite 0.
Proof.
  intros Hn Hd.
  assert (Hm : (0 <= num_qubits * depth)%Z) by (apply Z.mul_nonneg_nonneg; assumption).
  set (m := (num_qubits * depth)%Z) in *.
  assert (Esize : (2 * num_qubits * (depth + 1) = 2 * m + 2 * num_qubits)%Z)
    by (unfold m; ring).
  assert (Elo : (2 * num_qubits * depth = 2 * m)%Z) by (unfold m; ring).
  unfold Cell3.param_values_init, np_zeros. rewrite Esize, Elo.
  destruct (Z.ltb_spec (2 * m + 2 * num_qubits) 0) as [?|_]; [lia|].
  cbn [bind]. set (arr := repeat (Finite 0) (Z.to_nat (2 * m + 2 * num_qubits))).
  assert (Hlen : Z.of_nat (length arr) = (2 * m + 2 * num_qubits)%Z)
    by (unfold arr; rewrite repeat_length; lia).
  unfold fill_half_pi. rewrite fill_in_bounds
    by (intros j Hj; apply in_py_range in Hj; lia).
  eexists. split; [reflexivity|].
  assert (Hkeep : forall js,
             length (fold_left (fun a j => set_nth (Z.to_nat j) half_pi a) js arr)
             = length arr).
  { intros js. generalize arr. induction js as [|j js IH]; intros a; simpl;
      [reflexivity|]. rewrite IH. apply set_nth_length. }
  split; [rewrite Hkeep; exact Hlen|].
  intros i Hi. rewrite Hkeep in Hi.
  rewrite nth_fill; [|intros j Hj; apply in_py_range in Hj; lia|exact Hi].
  assert (Hzero : nth i arr NaN = Finite 0).
  { unfold arr. apply nth_repeat_lt. unfold arr in Hi.
    rewrite repeat_length in Hi. exact Hi. }
  rewrite Hzero, Hlen.
  destruct (existsb (Z.eqb (Z.of_nat i))
                    (py_range (2 * m) (2 * m + 2 * num_qubits - num_qubits - 2)))
    eqn:Hex.
  - apply existsb_exists in Hex. destruct Hex as [j [Hj E]].
    apply Z.eqb_eq in E. subst j. apply in_py_range in Hj.
    destruct (Z.leb_spec (2 * m) (Z.of_nat i)); [|lia].
    destruct (Z.ltb_spec (Z.of_nat i) (2 * m + num_qubits - 2)); [|lia].
    reflexivity.
  - destruct (Z.leb_spec (2 * m) (Z.of_nat i)) as [Hlo|]; [|reflexivity].
    destruct (Z.ltb_spec (Z.of_nat i) (2 * m + num_qubits - 2)) as [Hhi|];
      [|reflexivity].
    exfalso. assert (Hin : In (Z.of_nat i)
      (py_range (2 * m) (2 * m + 2 * num_qubits - num_qubits - 2)))
      by (apply in_py_range; lia).
    assert (Hex' : existsb (Z.eqb (Z.of_nat i))
      (py_range (2 * m) (2 * m + 2 * num_qubits - num_qubits - 2)) = true)
      by (apply existsb_exists; exists (Z.of_nat i); split;
          [exact Hin|apply Z.eqb_refl]).
    congruence.
Qed.

(** Truncating half of a length. *)
Lemma py_int_half (n : Z) :
  (0 <= n)%Z -> py_int (Finite (IZR n / IZR 2)) = Ok (n / 2)%Z.
Proof.
  intros Hn. unfold py_int.
  assert (Hq : (n = 2 * (n / 2) + n mod 2)%Z) by (apply Z.div_mod; lia).
  assert (Hr : (0 <= n mod 2 < 2)%Z) by (apply Z.mod_pos_bound; lia).
  set (q := (n / 2)%Z) in *. set (r := (n mod 2)%Z) in *.
  assert (E : IZR n = (2 * IZR q + IZR r)%R)
    by (rewrite Hq, plus_IZR, mult_IZR; reflexivity).
  assert (R0 : (0 <= IZR r)%R) by (apply IZR_le; lia).
  assert (R1 : (IZR r <= 1)%R) by (apply IZR_le; lia).
  assert (Q0 : (0 <= IZR q)%R) by (apply IZR_le; lia).
  destruct (Rle_dec 0 (IZR n / IZR 2)) as [_|N]; [|exfalso; apply N; rewrite E; lra].
  f_equal. symmetry. apply Int_part_spec. rewrite E. lra.
Qed.

(** X2.  The wiring of the ansatz stays inside the register.  For a
    register of any length the [cx] calls of lines 130-131 are built
    without error, there are [len // 2] of them, each has its control
    below its target and both inside the register, and no qubit is used
    by two of them.  Every pair [[a, b]] of the entangler map of line 127
    couples neighbours [b = a - 1] inside [0 .. num_qubits - 1]. *)
Theorem ansatz_wiring_in_register (len_qr : nat) (num_qubits : Z) :
  (exists pairs : list (Z * Z),
     cx_pairs len_qr = Ok pairs /\
     length pairs = (len_qr / 2)%nat /\
     (forall c t, In (c, t) pairs -> (0 <= c < t)%Z /\ (t < Z.of_nat len_qr)%Z) /\
     NoDup (map fst pairs ++ map snd pairs)) /\
  length (entangler_map num_qubits) = Z.to_nat (num_qubits - 1) /\
  (forall pair, In pair (entangler_map num_qubits) ->
     exists b, pair = [b + 1; b]%Z /\ (0 <= b)%Z /\ (b + 1 < num_qubits)%Z).
Proof.
  split; [|split].
  - unfold cx_pairs.
    change (float_of_int (Z.of_nat len_qr)) with (Finite (IZR (Z.of_nat len_qr))).
    rewrite py_truediv_finite by lia. cbn [bind].
    rewrite py_int_half by lia. cbn [bind].
    set (half := (Z.of_nat len_qr / 2)%Z).
    assert (Hhalf : (0 <= half /\ 2 * half <= Z.of_nat len_qr)%Z).
    { unfold half. split; [apply Z.div_pos; lia|].
      apply Z.mul_div_le. lia. }
    eexists. split; [reflexivity|]. split; [|split].
    + rewrite length_map. unfold py_range. rewrite length_map, length_seq.
      unfold half. rewrite Z.sub_0_r.
      change 2%Z with (Z.of_nat 2). rewrite <- Nat2Z.inj_div. apply Nat2Z.id.
    + intros c t Hin. apply in_map_iff in Hin. destruct Hin as [i [E Hi]].
      injection E as <- <-. apply in_py_range in Hi. lia.
    + rewrite !map_map. cbn [fst snd]. rewrite map_id.
      apply NoDup_app.
      * apply NoDup_py_range.
      * apply NoDup_map_injective; [intros x y E; lia|apply NoDup_py_range].
      * intros a Ha Hb. apply in_py_range in Ha.
        apply in_map_iff in Hb. destruct Hb as [i [E Hi]].
        apply in_py_range in Hi. lia.
  - unfold entangler_map, py_range. rewrite !length_map, length_seq.
    f_equal. lia.
  - intros pair Hin. unfold entangler_map in Hin. apply in_map_iff in Hin.
    destruct Hin as [b [E Hb]]. apply in_py_range in Hb.
    exists b. split; [symmetry; exact E|lia].
Qed.

(** ** The integrator: grids *)

(** X5.  Integrating over a grid cut in two is integrating over the first
    part and then, from the vector reached, over the second part. *)
Theorem get_gibbs_state_params_concat
        (g : globals) (op : Operator) (ansatz0 : Ansatz)
        (param_values pre post : list float64) :
  get_gibbs_state_params g op ansatz0 param_values (pre ++ post) =
  (p <- get_gibbs_state_params g op ansatz0 param_values pre ;;
   get_gibbs_state_params g op ansatz0 p post).
Proof.
  unfold get_gibbs_state_params.
  destruct (NaturalGradient_convert op (ordered_parameters ansatz0)) as [ng|e];
    cbn [bind]; [|reflexivity].
  rewrite propagate_app.
  destruct (propagate g ansatz0 ng pre param_values); reflexivity.
Qed.

(** X6.  A call that returns hands back the caller's own object exactly
    when the time grid is empty; an empty grid also leaves the store as
    it is. *)
Theorem result_aliases_argument_iff_grid_empty
        (g : globals) (op : Operator) (ansatz0 : Ansatz)
        (param_values : loc) (steps : list float64)
        (h : heap) (v : list float64) (l' : loc) :
  nth_error h param_values = Some v ->
  fst (get_gibbs_state_params_st g op ansatz0 param_values steps h) = Ok l' ->
  (l' = param_values <-> steps = []) /\
  (steps = [] ->
   snd (get_gibbs_state_params_st g op ansatz0 param_values steps h) = h).
Proof.
  intros Hl Hrun.
  assert (Hlt : (param_values < length h)%nat)
    by (apply nth_error_Some; congruence).
  unfold get_gibbs_state_params_st, mbind, lift in *.
  destruct (NaturalGradient_convert op (ordered_parameters ansatz0)) as [ng|e];
    [|discriminate].
  split.
  - destruct (propagate_st_fresh g ansatz0 ng steps param_values h l' Hrun)
      as [[E1 E2]|Hfresh].
    + split; intros _; assumption.
    + split; [intros E; lia|].
      intros E. subst steps. simpl in Hrun. injection Hrun as <-. reflexivity.
  - intros ->. reflexivity.
Qed.

(** ** The integrator: errors *)

Lemma py_truediv_by_int (x : float64) (n : Z) :
  n <> 0%Z -> py_truediv x (float_of_int n) = Ok (fdiv x (float_of_int n)).
Proof.
  intros Hn. unfold py_truediv, float_of_int.
  destruct (Req_dec_T (IZR n) 0) as [E|_]; [|reflexivity].
  exfalso. apply Hn. apply eq_IZR. exact E.
Qed.

Lemma py_truediv_by_zero (x : float64) :
  py_truediv x (float_of_int 0) = Err ZeroDivisionError.
Proof.
  unfold py_truediv, float_of_int.
  destruct (Req_dec_T (IZR 0) 0) as [_|N]; [reflexivity|]. exfalso. apply N. reflexivity.
Qed.

(** X7.  With [num_time_steps = 0] at module level, a call on a grid that
    is not empty raises [ZeroDivisionError] at its first pass (the
    natural gradient is evaluated before the division); on the empty
    grid it returns its argument, the division never being evaluated. *)
Theorem zero_num_time_steps_raises
        (g : globals) (op : Operator) (ansatz0 : Ansatz) (nat_grad : NatGrad)
        (param_values rest : list float64) (s : float64) (r : list complex128) :
  num_time_steps g = 0%Z ->
  NaturalGradient_convert op (ordered_parameters ansatz0) = Ok nat_grad ->
  NatGrad_eval nat_grad (combine (ordered_parameters ansatz0) param_values) = Ok r ->
  get_gibbs_state_params g op ansatz0 param_values (s :: rest) =
    Err ZeroDivisionError /\
  get_gibbs_state_params g op ansatz0 param_values [] = Ok param_values.
Proof.
  intros Hn Hconv Heval. unfold get_gibbs_state_params. rewrite Hconv.
  cbn [bind propagate]. split; [|reflexivity].
  unfold euler_update. rewrite Heval, Hn. cbn [bind].
  rewrite py_truediv_by_zero. reflexivity.
Qed.

Lemma broadcast_raises {A B C : Type} (f : A -> B -> C) (xs : list A) (ys : list B)
      (e : exn) :
  broadcast f xs ys = Err e -> e = ValueError.
Proof.
  unfold broadcast. destruct (Nat.eqb (length xs) (length ys)); [discriminate|].
  destruct xs as [|x [|x' xs]]; destruct ys as [|y [|y' ys]];
    intros E; try discriminate; injection E as <-; reflexivity.
Qed.

Lemma broadcast_mismatch {A B C : Type} (f : A -> B -> C) (xs : list A) (ys : list B) :
  length xs <> length ys -> length xs <> 1%nat -> length ys <> 1%nat ->
  broadcast f xs ys = Err ValueError.
Proof.
  intros Hne Hx Hy. unfold broadcast.
  destruct (Nat.eqb_spec (length xs) (length ys)) as [E|_]; [contradiction|].
  destruct xs as [|x [|x' xs]]; destruct ys as [|y [|y' ys]];
    simpl in *; try reflexivity; contradiction.
Qed.

(** X8.  With [num_time_steps] an int different from 0 and below
    [2 ^ 53] in absolute value (so that its conversion to a double in
    [t/num_time_steps] is exact and cannot overflow), the integrator
    raises only what its collaborators raise and the [ValueError] of
    [np.subtract]: a [ZeroDivisionError] comes out of a call only if the
    gradient conversion or evaluation raised it, for every value of [t],
    [nan] and the infinities included. *)
Theorem nonzero_num_time_steps_never_divides_by_zero
        (g : globals) (op : Operator) (ansatz0 : Ansatz)
        (param_values steps : list float64) (e : exn) :
  num_time_steps g <> 0%Z ->
  (Z.abs (num_time_steps g) < 2 ^ 53)%Z ->
  get_gibbs_state_params g op ansatz0 param_values steps = Err e ->
  e = ValueError \/
  NaturalGradient_convert op (ordered_parameters ansatz0) = Err e \/
  exists nat_grad q, NatGrad_eval nat_grad q = Err e.
Proof.
  intros Hn _. unfold get_gibbs_state_params.
  destruct (NaturalGradient_convert op (ordered_parameters ansatz0)) as [ng|e'];
    cbn [bind]; [|intros E; injection E as <-; right; left; reflexivity].
  revert param_values. induction steps as [|s rest IH]; intros pv Hrun;
    simpl in Hrun; [discriminate|].
  destruct (euler_update g ansatz0 ng pv) as [pv'|e'] eqn:Hup; cbn [bind] in Hrun.
  - exact (IH pv' Hrun).
  - injection Hrun as <-. unfold euler_update in Hup.
    destruct (NatGrad_eval ng (combine (ordered_parameters ansatz0) pv))
      as [r|e''] eqn:Hev; cbn [bind] in Hup.
    + rewrite py_truediv_by_int in Hup by exact Hn. cbn [bind] in Hup.
      left. exact (broadcast_raises _ _ _ _ Hup).
    + injection Hup as <-. right. right. eauto.
Qed.

(** ** The integrator: shapes *)

(** X9.  When every direction has one entry per parameter, a call that
    returns gives a vector as long as the one it was given. *)
Theorem get_gibbs_state_params_keeps_length
        (g : globals) (op : Operator) (ansatz0 : Ansatz) (nat_grad : NatGrad)
        (param_values steps v : list float64) :
  NaturalGradient_convert op (ordered_parameters ansatz0) = Ok nat_grad ->
  (forall q d,
     length q = length param_values ->
     NatGrad_eval nat_grad (combine (ordered_parameters ansatz0) q) = Ok d ->
     length d = length q) ->
  get_gibbs_state_params g op ansatz0 param_values steps = Ok v ->
  length v = length param_values.
Proof.
  intros Hconv Hshape. unfold get_gibbs_state_params. rewrite Hconv. cbn [bind].
  assert (G : forall p, length p = length param_values ->
                propagate g ansatz0 nat_grad steps p = Ok v ->
                length v = length param_values).
  { induction steps as [|s rest IH]; intros p Hp Hrun; simpl in Hrun.
    - injection Hrun as <-. exact Hp.
    - destruct (euler_update g ansatz0 nat_grad p) as [p'|e] eqn:Hup;
        cbn [bind] in Hrun; [|discriminate].
      apply (IH p'); [|exact Hrun].
      assert (Hup' := Hup). unfold euler_update in Hup'.
      destruct (NatGrad_eval nat_grad (combine (ordered_parameters ansatz0) p))
        as [r|e] eqn:Hev; [|discriminate].
      destruct (euler_update_nan g ansatz0 nat_grad p p' r 0 Hev
                                 (Hshape _ _ Hp Hev) Hup) as [Hlen _].
      congruence. }
  apply G. reflexivity.
Qed.

(** X10.  A direction whose length is neither that of the parameter
    vector nor one makes the call raise [ValueError] at that pass (for a
    vector that is not of length one).  A direction of length one raises
    nothing: its single entry is subtracted from every parameter. *)
Theorem direction_of_wrong_length
        (g : globals) (op : Operator) (ansatz0 : Ansatz) (nat_grad : NatGrad)
        (param_values rest : list float64) (s : float64) (r : list complex128) :
  num_time_steps g <> 0%Z ->
  NaturalGradient_convert op (ordered_parameters ansatz0) = Ok nat_grad ->
  NatGrad_eval nat_grad (combine (ordered_parameters ansatz0) param_values) = Ok r ->
  length param_values <> 1%nat ->
  length r <> length param_values ->
  (length r <> 1%nat ->
   get_gibbs_state_params g op ansatz0 param_values (s :: rest) = Err ValueError) /\
  (forall z, r = [z] ->
   get_gibbs_state_params g op ansatz0 param_values [s] =
   Ok (map (fun x => fsub x (fmul (fdiv (t g) (float_of_int (num_time_steps g)))
                                  (re z)))
           param_values)).
Proof.
  intros Hn Hconv Heval Hp Hne.
  unfold get_gibbs_state_params. rewrite Hconv. cbn [bind propagate].
  unfold euler_update. rewrite Heval. cbn [bind].
  rewrite py_truediv_by_int by exact Hn. cbn [bind]. unfold np_subtract.
  split.
  - intros Hr. rewrite broadcast_mismatch; [reflexivity| | |].
    + unfold scalar_mul, np_real. rewrite !length_map. congruence.
    + exact Hp.
    + unfold scalar_mul, np_real. rewrite !length_map. exact Hr.
  - intros z ->. cbn [np_real scalar_mul map]. unfold broadcast.
    destruct (Nat.eqb_spec (length param_values) (length [fmul
               (fdiv (t g) (float_of_int (num_time_steps g))) (re z)])) as [E|_];
      [simpl in E; contradiction|].
    destruct param_values as [|x [|x' xs]]; [reflexivity|contradiction Hp; reflexivity|].
    reflexivity.
Qed.


(** ** The loss: values *)

Lemma combine_map_pair {A B A' B' : Type} (u : A -> A') (w : B -> B')
      (xs : list A) (ys : list B) :
  combine (map u xs) (map w ys) =
  map (fun p => (u (fst p), w (snd p))) (combine xs ys).
Proof.
  revert ys. induction xs as [|x xs IH]; intros [|y ys]; simpl; try reflexivity.
  f_equal. apply IH.
Qed.

(** The loss of a positive trained distribution, as a real number. *)
Lemma loss_fn_value (target trained : list R) :
  length target = length trained ->
  Forall (fun x => (0 < x)%R) trained ->
  loss_fn (map Finite target) (map probability trained) =
  Ok (Finite (cross_entropy target trained)).
Proof.
  intros E Hpos.
  rewrite loss_fn_pairs by (rewrite !length_map; exact E).
  rewrite combine_map_pair, map_map. cbn [fst snd]. unfold np_sum.
  destruct (re_np_sum_finite
              (fun p => cmul (of_float (Finite (fst p))) (clog (probability (snd p))))
              (fun p => (fst p * ln (snd p))%R)
              (combine target trained)) with (a := 0%R) (b := 0%R) as [b' Eb].
  - intros [t0 x] Hin. cbn [fst snd].
    exists (t0 * 0 + 0 * ln x)%R. apply cmul_target_log.
    apply in_combine_r in Hin. rewrite Forall_forall in Hpos. auto.
  - unfold of_float in Eb |- *. rewrite Eb. cbn [cneg re fneg]. do 2 f_equal.
    unfold cross_entropy. ring.
Qed.

Lemma ln_le_sub_1 (x : R) : (0 < x)%R -> (ln x <= x - 1)%R.
Proof.
  intros Hx. pose proof (exp_ineq1_le (ln x)) as H1.
  rewrite exp_ln in H1 by exact Hx. lra.
Qed.

(** X13.  For a target with entries in [0, 1] and a trained distribution
    with entries in (0, 1], the loss is a finite number that is not
    negative. *)
Theorem loss_fn_nonnegative (target trained : list R) :
  length target = length trained ->
  Forall (fun p => (0 <= p <= 1)%R) target ->
  Forall (fun x => (0 < x <= 1)%R) trained ->
  exists v : R,
    loss_fn (map Finite target) (map probability trained) = Ok (Finite v) /\
    (0 <= v)%R.
Proof.
  intros E Ht Hx. exists (cross_entropy target trained). split.
  - apply loss_fn_value; [exact E|].
    apply (Forall_impl _ (P := fun x => (0 < x <= 1)%R)); [intros x Hx'; lra|exact Hx].
  - unfold cross_entropy.
    assert (G : (Rsum (map (fun p => fst p * ln (snd p)) (combine target trained))
                 <= 0)%R).
    { clear E. revert trained Hx. induction Ht as [|p ps Hp _ IH];
        intros trained Hx; [simpl; lra|].
      destruct Hx as [|x xs Hx0 Hxs]; [simpl; lra|].
      simpl. specialize (IH xs Hxs).
      assert (ln x <= 0)%R by (pose proof (ln_le_sub_1 x); lra).
      assert (p * ln x <= 0)%R by nra. lra. }
    lra.
Qed.

Lemma gibbs_term (p x : R) :
  (0 <= p)%R -> (0 < x)%R -> (p * ln x - p * ln p <= x - p)%R.
Proof.
  intros Hp Hx. destruct (Req_dec_T p 0) as [->|Hne].
  - rewrite !Rmult_0_l. lra.
  - assert (Hp' : (0 < p)%R) by lra.
    assert (Hq : (0 < x * / p)%R)
      by (apply Rmult_lt_0_compat; [exact Hx|apply Rinv_0_lt_compat; exact Hp']).
    pose proof (ln_le_sub_1 (x * / p) Hq) as H1.
    rewrite ln_mult in H1 by (try apply Rinv_0_lt_compat; assumption).
    rewrite ln_Rinv in H1 by exact Hp'.
    assert (H2 : (p * (ln x + - ln p) <= p * (x * / p - 1))%R)
      by (apply Rmult_le_compat_l; lra).
    replace (p * (x * / p - 1))%R with (x - p)%R in H2 by (field; lra).
    lra.
Qed.

Lemma gibbs_sum (target : list R) :
  Forall (fun p => (0 <= p)%R) target ->
  forall trained,
    length target = length trained ->
    Forall (fun x => (0 < x)%R) trained ->
    (Rsum (map (fun p => fst p * ln (snd p)) (combine target trained))
     - Rsum (map (fun p => p * ln p) target)
     <= Rsum trained - Rsum target)%R.
Proof.
  induction 1 as [|p ps Hp _ IH]; intros [|x xs] E Hx; simpl in *;
    try discriminate; [lra|].
  inversion Hx as [|? ? Hx0 Hxs]; subst.
  specialize (IH xs (f_equal pred E) Hxs).
  pose proof (gibbs_term p x Hp Hx0). lra.
Qed.

Lemma cross_entropy_diagonal (p : list R) : cross_entropy p p = entropy p.
Proof.
  unfold cross_entropy, entropy. f_equal.
  induction p as [|x p IH]; simpl; [reflexivity|]. rewrite IH. reflexivity.
Qed.


(** ** The loss: special values and shapes *)

Lemma nth_error_combine {A B : Type} (xs : list A) (ys : list B) (i : nat)
      (x : A) (y : B) :
  nth_error xs i = Some x -> nth_error ys i = Some y ->
  nth_error (combine xs ys) i = Some (x, y).
Proof.
  revert xs ys. induction i as [|i IH]; intros [|x' xs] [|y' ys] Hx Hy;
    simpl in *; try discriminate.
  - congruence.
  - eauto.
Qed.

(** X15.  Whenever some index holds a zero in the target and a zero in
    the trained distribution, the loss is [nan], whatever the other
    entries are. *)
Theorem loss_fn_nan_at_zero_zero
        (p_target : list float64) (p_qbm : list complex128) (i : nat) :
  length p_target = length p_qbm ->
  nth_error p_target i = Some (Finite 0) ->
  nth_error p_qbm i = Some (probability 0) ->
  loss_fn p_target p_qbm = Ok NaN.
Proof.
  intros E Ht Hq. rewrite loss_fn_pairs by exact E. f_equal.
  cbn [cneg re]. unfold np_sum.
  rewrite (re_fold_left_cadd_nan _
             (cmul (of_float (Finite 0)) (clog (probability 0)))).
  - reflexivity.
  - apply (in_map (fun p => cmul (of_float (fst p)) (clog (snd p)))
                  _ (Finite 0, probability 0)).
    apply (nth_error_In _ i). apply nth_error_combine; assumption.
  - rewrite clog_zero. apply cmul_zero_neg_infinity.
Qed.

Lemma re_fold_left_cadd (l : list complex128) :
  forall z, re (fold_left cadd l z) = fold_left fadd (map re l) (re z).
Proof.
  induction l as [|w l IH]; intros z; simpl; [reflexivity|]. apply IH.
Qed.

Lemma re_cmul_clog_abs (y : float64) (x : R) :
  re (cmul (of_float y) (clog (probability x))) =
  re (cmul (of_float y) (clog (probability (Rabs x)))).
Proof.
  unfold cmul, clog, probability, of_float. cbn [re im fhypot fatan2 fmul].
  replace (Rabs x * Rabs x + 0 * 0)%R with (x * x + 0 * 0)%R
    by (rewrite <- Rabs_mult, (Rabs_pos_eq (x * x)); [reflexivity|nra]).
  generalize (fmul y (flog (Finite (sqrt (x * x + 0 * 0))))). intros u.
  unfold fsub. destruct u; cbn [fneg fadd]; try reflexivity.
  f_equal. ring.
Qed.

(** X16.  The loss does not see the sign of a trained entry: the complex
    logarithm of a negative entry has the real part [log |x|], and the
    imaginary part is dropped at the end, so a trained vector and the
    vector of its absolute values give the same loss. *)
Theorem loss_fn_ignores_sign (p_target : list float64) (trained : list R) :
  length p_target = length trained ->
  loss_fn p_target (map probability trained) =
  loss_fn p_target (map probability (map Rabs trained)).
Proof.
  intros E.
  rewrite !loss_fn_pairs by (rewrite ?length_map; exact E).
  f_equal. cbn [cneg re]. f_equal. unfold np_sum. rewrite !re_fold_left_cadd.
  f_equal. clear E. revert trained.
  induction p_target as [|y ys IH]; intros [|x xs]; simpl; try reflexivity.
  f_equal; [apply re_cmul_clog_abs|apply IH].
Qed.

(** X17.  The loss raises [ValueError] exactly when the two arrays have
    different lengths and neither has length one; an array of length one
    is stretched over the other without complaint. *)
Theorem loss_fn_shapes (p_target : list float64) (p_qbm : list complex128) :
  (length p_target = length p_qbm \/ length p_target = 1%nat \/
   length p_qbm = 1%nat ->
   exists v, loss_fn p_target p_qbm = Ok v) /\
  (length p_target <> length p_qbm -> length p_target <> 1%nat ->
   length p_qbm <> 1%nat ->
   loss_fn p_target p_qbm = Err ValueError) /\
  (forall y, length p_qbm <> 1%nat ->
   loss_fn [y] p_qbm =
   Ok (re (cneg (np_sum (map (fun z => cmul (of_float y) (clog z)) p_qbm))))).
Proof.
  unfold loss_fn, np_multiply, np_log. split; [|split].
  - intros [E|[E|E]].
    + rewrite broadcast_same_length by (rewrite !length_map; exact E). eexists.
      reflexivity.
    + destruct p_target as [|y [|y' ys]]; try discriminate. unfold broadcast.
      cbn [map length].
      destruct (Nat.eqb 1 (length (map clog p_qbm))); eexists; reflexivity.
    + destruct p_qbm as [|z [|z' zs]]; try discriminate. unfold broadcast.
      cbn [map length].
      destruct (Nat.eqb (length (map of_float p_target)) 1); [eexists; reflexivity|].
      destruct (map of_float p_target) as [|a [|a' l]]; eexists; reflexivity.
  - intros Hne H1 H2.
    rewrite broadcast_mismatch by (rewrite ?length_map; assumption). reflexivity.
  - intros y Hq. unfold broadcast. cbn [map length]. rewrite length_map.
    destruct (Nat.eqb_spec 1 (length p_qbm)) as [E|_]; [congruence|].
    cbn [bind]. rewrite map_map. reflexivity.
Qed.

(** ** The loss: a zero probability where the target is positive *)

Lemma re_cmul_log_zero (p : R) :
  (0 < p)%R -> re (cmul (of_float (Finite p)) (clog (probability 0))) = NInf.
Proof.
  intros Hp. rewrite clog_zero. unfold cmul, of_float. cbn [re im fmul].
  unfold scale_inf. destruct (total_order_T p 0) as [[L|Z]|G]; try lra.
  reflexivity.
Qed.

Lemma fold_left_fadd_from_neg_infinity (l : list float64) :
  Forall (fun y => y = NInf \/ exists r, y = Finite r) l ->
  fold_left fadd l NInf = NInf.
Proof.
  induction 1 as [|y l [->|[r ->]] _ IH]; simpl; auto.
Qed.

Lemma fold_left_fadd_meets_neg_infinity (l : list float64) :
  Forall (fun y => y = NInf \/ exists r, y = Finite r) l ->
  Exists (fun y => y = NInf) l ->
  forall a, fold_left fadd l (Finite a) = NInf.
Proof.
  induction 1 as [|y l Hy Hl IH]; intros Hex a; [inversion Hex|].
  simpl. destruct Hy as [->|[r ->]].
  - simpl. apply fold_left_fadd_from_neg_infinity. exact Hl.
  - simpl. apply IH. inversion Hex as [? ? E|? ? E]; subst; [discriminate|exact E].
Qed.

(** X19.  When the trained distribution is zero at some index where the
    target is positive, and positive wherever it is not zero, the loss is
    [+inf]: nothing is raised and nothing is clamped. *)
Theorem loss_fn_infinite_off_support (target trained : list R) :
  Forall2 (fun p x => (0 < x)%R \/ (x = 0%R /\ (0 < p)%R)) target trained ->
  Exists (fun x => x = 0%R) trained ->
  loss_fn (map Finite target) (map probability trained) = Ok PInf.
Proof.
  intros H2 Hex.
  assert (E : length target = length trained) by (eapply Forall2_length; exact H2).
  rewrite loss_fn_pairs by (rewrite !length_map; exact E).
  rewrite combine_map_pair, map_map. cbn [fst snd cneg re]. unfold np_sum.
  rewrite re_fold_left_cadd, map_map.
  change (re (of_float (Finite 0))) with (Finite 0).
  rewrite fold_left_fadd_meets_neg_infinity; [reflexivity| |].
  - clear Hex E.
    induction H2 as [|p x ps xs Hpx _ IH]; cbn [map combine fst snd];
      constructor; auto.
    destruct Hpx as [Hx|[-> Hp]].
    + right. rewrite cmul_target_log by exact Hx. eexists. reflexivity.
    + left. apply re_cmul_log_zero. exact Hp.
  - clear E.
    induction H2 as [|p x ps xs Hpx _ IH]; cbn [map combine fst snd];
      [inversion Hex|].
    inversion Hex as [? ? Hx0|? ? Hrest]; subst.
    + apply Exists_cons_hd. destruct Hpx as [Hx|[_ Hp]]; [lra|].
      apply re_cmul_log_zero. exact Hp.
    + apply Exists_cons_tl. apply IH. exact Hrest.
Qed.


(** ** Lines 597-598: the L1 distance *)

Lemma fold_left_fadd_finite (l : list R) :
  forall a, fold_left fadd (map Finite l) (Finite a) = Finite (a + Rsum l).
Proof.
  induction l as [|x l IH]; intros a; simpl.
  - f_equal. lra.
  - rewrite IH. f_equal. ring.
Qed.

Lemma cabs_difference (p x : R) :
  cabs (csub (of_float (Finite p)) (probability x)) = Finite (Rabs (p - x)).
Proof.
  unfold cabs, csub, probability, of_float, fsub. cbn [re im fneg fadd fhypot].
  f_equal.
  replace ((p + - x) * (p + - x) + (0 + - 0) * (0 + - 0))%R with (Rsqr (p - x))
    by (unfold Rsqr; ring).
  apply sqrt_Rsqr_abs.
Qed.



End Notebook.

Arguments get_gibbs_state_params {Param Operator Ansatz NatGrad}.
Arguments get_gibbs_state_params_st {Param Operator Ansatz NatGrad}.
Arguments propagate {Param Ansatz NatGrad}.
Arguments loss {Param Operator Hamiltonian Ansatz AnsatzOp NatGrad}.
Arguments loss_st {Param Operator Hamiltonian Ansatz AnsatzOp NatGrad}.

(* ================================================================== *)
(** * Part III: the model run on concrete inputs *)
(* ================================================================== *)

(** The step size of the notebook: 0.5 / 10 = 0.05. *)
Lemma notebook_step_size :
  py_truediv (t (notebook 10)) (float_of_int (num_time_steps (notebook 10))) =
  Ok (Finite 0.05).
Proof.
  cbn [t num_time_steps notebook]. rewrite py_truediv_finite by lia.
  do 2 f_equal. lra.
Qed.

(** One pass with the direction [[1]] from the vector [[0]]. *)
Lemma one_step_unit_direction (n : Z) :
  n <> 0%Z ->
  get_gibbs_state_params one_parameter convert_ok
    (eval_const [of_float (Finite 1)]) (notebook n) tt tt [Finite 0] [Finite 0] =
  Ok [Finite (- (0.5 / IZR n))].
Proof.
  intros Hn. unfold get_gibbs_state_params, convert_ok. cbn [bind propagate].
  unfold euler_update, eval_const. cbn [bind t num_time_steps notebook].
  rewrite py_truediv_finite by exact Hn. cbn [bind].
  unfold np_subtract, np_real, scalar_mul, of_float. cbn [map re].
  rewrite broadcast_same_length by reflexivity.
  cbn [zip_with bind]. unfold fsub. cbn [fmul fneg fadd]. do 3 f_equal. ring.
Qed.

(** One pass with a direction whose only entry is [nan]. *)
Lemma one_step_nan_direction :
  get_gibbs_state_params one_parameter convert_ok
    (eval_const [Cx NaN (Finite 0)]) (notebook 10) tt tt [Finite 0] [Finite 0] =
  Ok [NaN].
Proof.
  unfold get_gibbs_state_params, convert_ok. cbn [bind propagate].
  unfold euler_update, eval_const. cbn [bind t num_time_steps notebook].
  rewrite py_truediv_finite by lia. cbn [bind].
  unfold np_subtract, np_real, scalar_mul. cbn [map re].
  rewrite broadcast_same_length by reflexivity. reflexivity.
Qed.

(** Witness of the amended C1: the notebook's own numbers, t = 0.5 and
    num_time_steps = 10.  The first update, with the direction [[1]],
    takes [[0]] to [[0 - 0.05 * 1]]. *)
Lemma every_update_subtracts_t_over_num_time_steps_witness :
  t (notebook 10) = Finite 0.5 /\
  num_time_steps (notebook 10) <> 0%Z /\
  (Z.abs (num_time_steps (notebook 10)) < 2 ^ 53)%Z /\
  convert_ok tt (one_parameter tt) = Ok tt /\
  get_gibbs_state_params one_parameter convert_ok
    (eval_const [of_float (Finite 1)]) (notebook 10) tt tt [Finite 0] [] =
    Ok [Finite 0] /\
  eval_const [of_float (Finite 1)] tt (combine (one_parameter tt) [Finite 0]) =
    Ok [of_float (Finite 1)] /\
  length [of_float (Finite 1)] = length [Finite 0] /\
  exists p',
    get_gibbs_state_params one_parameter convert_ok
      (eval_const [of_float (Finite 1)]) (notebook 10) tt tt [Finite 0]
      ([] ++ [Finite 0]) = Ok p' /\
    nth_error p' 0 = Some (Finite (-0.05)).
Proof.
  assert (Hn : num_time_steps (notebook 10) <> 0%Z) by (cbn; lia).
  assert (Hb : (Z.abs (num_time_steps (notebook 10)) < 2 ^ 53)%Z) by reflexivity.
  split; [reflexivity|]. split; [exact Hn|]. split; [exact Hb|].
  split; [reflexivity|]. split; [reflexivity|]. split; [reflexivity|].
  split; [reflexivity|].
  destruct (proj1 (every_update_subtracts_t_over_num_time_steps
                     nat unit unit unit one_parameter convert_ok
                     (eval_const [of_float (Finite 1)]) (notebook 10) tt tt tt
                     [Finite 0] [] (Finite 0) [Finite 0] [of_float (Finite 1)]
                     0.5%R eq_refl Hn Hb eq_refl eq_refl eq_refl eq_refl))
    as [p' [Hrun [_ Hent]]].
  exists p'. split; [exact (Hrun [])|].
  rewrite (Hent 0%nat (Finite 0) (of_float (Finite 1)) eq_refl eq_refl).
  cbn [num_time_steps notebook of_float re]. unfold fsub.
  cbn [fmul fneg fadd]. do 2 f_equal. lra.
Defined.

(** Counterexample to C1: a call on the one-point grid
    [np.linspace(0, 0.5, 1)] while the module-level [num_time_steps] is
    10.  The horizon divided by the number of grid points is 0.5 / 1 and
    the update of the claim would give [0 - 0.5 * 1]; the call returns
    [0 - 0.05 * 1]. *)
Lemma step_size_is_not_read_from_the_grid :
  np_linspace (Finite 0) (Finite 0.5) 1 = Ok [Finite 0] /\
  get_gibbs_state_params one_parameter convert_ok
    (eval_const [of_float (Finite 1)]) (notebook 10) tt tt [Finite 0] [Finite 0] =
    Ok [Finite (-0.05)] /\
  fsub (Finite 0) (fmul (Finite (0.5 / INR (length [Finite 0]))) (Finite 1)) =
    Finite (-0.5) /\
  Finite (-0.05) <> Finite (-0.5).
Proof.
  split; [|split; [|split]].
  - unfold np_linspace. change (1 <? 0)%Z with false. change (1 <? 1)%Z with false.
    change (0 <? 1 - 1)%Z with false. change (Z.to_nat 1) with 1%nat.
    unfold fsub. cbn [seq map fneg fadd fmul INR]. do 3 f_equal. ring.
  - rewrite one_step_unit_direction by lia. do 3 f_equal. lra.
  - unfold fsub. cbn [fmul fneg fadd length INR]. f_equal. lra.
  - intros E. injection E as E. lra.
Qed.

(** Counterexample to C8: the same arguments under two values of the
    module-level [num_time_steps] give two different results. *)
Lemma step_size_follows_module_state :
  get_gibbs_state_params one_parameter convert_ok
    (eval_const [of_float (Finite 1)]) (notebook 10) tt tt [Finite 0] [Finite 0] =
    Ok [Finite (-0.05)] /\
  get_gibbs_state_params one_parameter convert_ok
    (eval_const [of_float (Finite 1)]) (notebook 5) tt tt [Finite 0] [Finite 0] =
    Ok [Finite (-0.1)] /\
  Finite (-0.05) <> Finite (-0.1).
Proof.
  split; [|split].
  - rewrite one_step_unit_direction by lia. do 3 f_equal. lra.
  - rewrite one_step_unit_direction by lia. do 3 f_equal. lra.
  - intros E. injection E as E. lra.
Qed.

(** Witness of the amended C8: two module states that agree on [t] and
    [num_time_steps] only, and two stores holding the vector at different
    places. *)
Lemma result_determined_by_arguments_and_step_globals_witness :
  t (notebook 10) = t other_notebook /\
  num_time_steps (notebook 10) = num_time_steps other_notebook /\
  nth_error [[Finite 0]] 0 = Some [Finite 0] /\
  nth_error [[NaN]; [Finite 0]] 1 = Some [Finite 0] /\
  get_gibbs_state_params one_parameter convert_ok
    (eval_const [of_float (Finite 1)]) (notebook 10) tt tt [Finite 0] grid10 =
  get_gibbs_state_params one_parameter convert_ok
    (eval_const [of_float (Finite 1)]) other_notebook tt tt [Finite 0] grid10 /\
  value_of (get_gibbs_state_params_st one_parameter convert_ok
              (eval_const [of_float (Finite 1)]) (notebook 10) tt tt
              0%nat grid10 [[Finite 0]]) =
  value_of (get_gibbs_state_params_st one_parameter convert_ok
              (eval_const [of_float (Finite 1)]) other_notebook tt tt
              1%nat grid10 [[NaN]; [Finite 0]]).
Proof.
  split; [reflexivity|]. split; [reflexivity|].
  split; [reflexivity|]. split; [reflexivity|].
  apply (result_determined_by_arguments_and_step_globals
           nat unit unit unit one_parameter convert_ok
           (eval_const [of_float (Finite 1)]) (notebook 10) other_notebook tt tt
           [Finite 0] grid10 [[Finite 0]] [[NaN]; [Finite 0]] 0%nat 1%nat);
    reflexivity.
Defined.

(** Counterexample to C4: the evaluation returns [nan] as the direction
    and the integrator returns a parameter vector that holds [nan], not
    an error; the evaluation raises and [loss] raises with it, returning
    no loss value. *)
Lemma nan_direction_returned_as_parameters :
  nth_error (np_real [Cx NaN (Finite 0)]) 0 = Some NaN /\
  get_gibbs_state_params one_parameter convert_ok
    (eval_const [Cx NaN (Finite 0)]) (notebook 10) tt tt [Finite 0] [Finite 0] =
    Ok [NaN] /\
  loss one_parameter convert_ok (eval_raise (Raised "LinAlgError"))
       measurement_ok (diagonal_const []) tt [] tt tt (notebook 10) [] =
    Err (Raised "LinAlgError").
Proof.
  split; [reflexivity|]. split; [exact one_step_nan_direction|]. reflexivity.
Qed.

(** Witness of the amended C4, at the first grid point. *)
Lemma numerical_failure_is_not_handled_witness :
  convert_ok tt (one_parameter tt) = Ok tt /\
  propagate one_parameter (eval_const [Cx NaN (Finite 0)]) (notebook 10) tt tt
            [] [Finite 0] = Ok [Finite 0] /\
  eval_const [Cx NaN (Finite 0)] tt (combine (one_parameter tt) [Finite 0]) =
    Ok [Cx NaN (Finite 0)] /\
  nth_error (np_real [Cx NaN (Finite 0)]) 0 = Some NaN /\
  get_gibbs_state_params one_parameter convert_ok
    (eval_const [Cx NaN (Finite 0)]) (notebook 10) tt tt [Finite 0]
    ([] ++ Finite 0 :: []) = Ok [NaN] /\
  nth_error [NaN] 0 = Some NaN.
Proof.
  split; [reflexivity|]. split; [reflexivity|]. split; [reflexivity|].
  split; [reflexivity|]. split; [exact one_step_nan_direction|].
  refine (proj1 (proj2 (numerical_failure_is_not_handled
                          nat unit unit unit unit unit one_parameter convert_ok
                          (eval_const [Cx NaN (Finite 0)]) measurement_ok
                          (diagonal_const []) tt [] tt tt (notebook 10) tt tt tt
                          [] [] (Finite 0) [Finite 0] [Finite 0] _ _))
                [Cx NaN (Finite 0)] 0%nat [NaN] _ _ _ _).
  - reflexivity.
  - reflexivity.
  - reflexivity.
  - reflexivity.
  - intros q d Hq Hd. injection Hd as <-. symmetry. exact Hq.
  - exact one_step_nan_direction.
Defined.

(** Witness of the amended C5: the zero direction at the vector
    [[pi/2]], over the ten grid points of the notebook. *)
Lemma zero_direction_leaves_params_unchanged_witness :
  convert_ok tt (one_parameter tt) = Ok tt /\
  eval_const [of_float (Finite 0)] tt (combine (one_parameter tt) [half_pi]) =
    Ok [of_float (Finite 0)] /\
  np_real [of_float (Finite 0)] = repeat (Finite 0) (length [half_pi]) /\
  (Z.abs (num_time_steps (notebook 10)) < 2 ^ 53)%Z /\
  py_truediv (t (notebook 10)) (float_of_int (num_time_steps (notebook 10))) =
    Ok (Finite 0.05) /\
  get_gibbs_state_params one_parameter convert_ok
    (eval_const [of_float (Finite 0)]) (notebook 10) tt tt [half_pi] grid10 =
  Ok [half_pi].
Proof.
  split; [reflexivity|]. split; [reflexivity|]. split; [reflexivity|].
  split; [reflexivity|]. split; [exact notebook_step_size|].
  apply (zero_direction_leaves_params_unchanged
           nat unit unit unit one_parameter convert_ok
           (eval_const [of_float (Finite 0)]) (notebook 10) tt tt tt
           [half_pi] grid10 [of_float (Finite 0)] 0.05%R);
    [reflexivity | reflexivity | reflexivity | reflexivity
     | exact notebook_step_size].
Defined.

(** Counterexample to C5: the direction is the zero vector at every
    parameter point, as for a Hamiltonian with all coefficients zero,
    and the conversion of line 311 raises on that operator.  The call
    returns no vector, for the integrator and for [loss] at the
    coefficients [[0, 0, 0]] alike. *)
Lemma zero_direction_yet_conversion_raises :
  eval_const [of_float (Finite 0)] tt (combine (one_parameter tt) [half_pi]) =
    Ok [of_float (Finite 0)] /\
  np_real [of_float (Finite 0)] = repeat (Finite 0) (length [half_pi]) /\
  get_gibbs_state_params one_parameter (convert_raise ZeroDivisionError)
    (eval_const [of_float (Finite 0)]) (notebook 10) tt tt [half_pi] grid10 =
    Err ZeroDivisionError /\
  loss one_parameter (convert_raise ZeroDivisionError)
       (eval_const [of_float (Finite 0)]) measurement_ok (diagonal_const [])
       tt [0; 1; 2]%nat tt tt (notebook 10) [Finite 0; Finite 0; Finite 0] =
    Err ZeroDivisionError /\
  Err ZeroDivisionError <> Ok [half_pi].
Proof.
  split; [reflexivity|]. split; [reflexivity|]. split; [reflexivity|].
  split; [reflexivity|]. discriminate.
Qed.

(** Witness of C10: the caller's vector after a call over ten grid
    points. *)
Lemma get_gibbs_state_params_never_mutates_witness :
  nth_error [[Finite 0]] 0 = Some [Finite 0] /\
  nth_error
    (snd (get_gibbs_state_params_st one_parameter convert_ok
            (eval_const [of_float (Finite 1)]) (notebook 10) tt tt
            0%nat grid10 [[Finite 0]])) 0 = Some [Finite 0].
Proof.
  split; [reflexivity|].
  refine (proj1 (get_gibbs_state_params_never_mutates
                   nat unit unit unit unit unit one_parameter convert_ok
                   (eval_const [of_float (Finite 1)]) measurement_ok
                   (diagonal_const []) tt [] tt tt (notebook 10) tt tt
                   0%nat grid10 [[Finite 0]] 0%nat [Finite 0] _)).
  reflexivity.
Defined.

(** Counterexample to C3: the target of the notebook and a trained
    distribution that is positive wherever the target is not zero, and
    zero elsewhere.  The loss is [nan]: the logarithm of the zero entries
    is computed and multiplied by the zero target. *)
Lemma loss_fn_nan_at_zero_probability :
  Forall2 (fun t x => t <> 0%R -> (0 < x)%R)
          [0.5; 0; 0; 0.5]%R [0.5; 0; 0; 0.5]%R /\
  loss_fn (map Finite [0.5; 0; 0; 0.5]%R) (map probability [0.5; 0; 0; 0.5]%R) =
    Ok NaN /\
  Ok NaN <>
  Ok (Finite (cross_entropy_on_support [0.5; 0; 0; 0.5]%R [0.5; 0; 0; 0.5]%R)).
Proof.
  split; [|split].
  - repeat constructor; intros; lra.
  - rewrite loss_fn_pairs by reflexivity.
    cbn [map combine fst snd cneg re]. f_equal.
    unfold np_sum.
    rewrite (re_fold_left_cadd_nan _
               (cmul (of_float (Finite 0)) (clog (probability 0)))).
    + reflexivity.
    + right. left. reflexivity.
    + rewrite clog_zero. apply cmul_zero_neg_infinity.
  - discriminate.
Qed.

(** Witness of the amended C3: the target of the notebook and the
    uniform trained distribution. *)
Lemma loss_fn_is_cross_entropy_witness :
  length [0.5; 0; 0; 0.5]%R = length [0.25; 0.25; 0.25; 0.25]%R /\
  Forall (fun x => (0 < x)%R) [0.25; 0.25; 0.25; 0.25]%R /\
  loss_fn (map Finite [0.5; 0; 0; 0.5]%R)
          (map probability [0.25; 0.25; 0.25; 0.25]%R) =
  Ok (Finite (cross_entropy [0.5; 0; 0; 0.5]%R [0.25; 0.25; 0.25; 0.25]%R)).
Proof.
  split; [reflexivity|]. split; [repeat constructor; lra|].
  refine (proj1 (loss_fn_is_cross_entropy
                   [0.5; 0; 0; 0.5]%R [0.25; 0.25; 0.25; 0.25]%R _ _));
    [reflexivity | repeat constructor; lra].
Defined.



(* ================================================================== *)
(** * Part IV: the further properties on concrete inputs *)
(* ================================================================== *)

(** Witness of X1: three qubits and depth two. *)
Lemma param_values_init_layout_witness :
  (0 <= 3)%Z /\ (0 <= 2)%Z /\
  exists v : list float64,
    Cell3.param_values_init 3 2 = Ok v /\
    Z.of_nat (length v) = (2 * 3 * (2 + 1))%Z /\
    forall i : nat,
      (i < length v)%nat ->
      nth i v NaN =
      if ((2 * 3 * 2 <=? Z.of_nat i) && (Z.of_nat i <? 2 * 3 * 2 + 3 - 2))%Z%bool
      then half_pi else Finite 0.
Proof.
  split; [lia|]. split; [lia|]. apply (param_values_init_layout 3 2); lia.
Defined.

(** Witness of X4: the grid of the notebook and ten [nan]s. *)
Lemma grid_values_are_not_read_witness :
  length grid10 = length (repeat NaN 10) /\
  get_gibbs_state_params one_parameter convert_ok
    (eval_const [of_float (Finite 1)]) (notebook 10) tt tt [Finite 0] grid10 =
  get_gibbs_state_params one_parameter convert_ok
    (eval_const [of_float (Finite 1)]) (notebook 10) tt tt [Finite 0]
    (repeat NaN 10).
Proof.
  split; [reflexivity|].
  apply (grid_values_are_not_read nat unit unit unit one_parameter convert_ok
           (eval_const [of_float (Finite 1)]) (notebook 10) tt tt [Finite 0]).
  reflexivity.
Defined.

(** One pass on the store, from the object at address 0. *)
Lemma one_step_on_the_store :
  get_gibbs_state_params_st one_parameter convert_ok
    (eval_const [of_float (Finite 1)]) (notebook 10) tt tt
    0%nat [Finite 0] [[Finite 0]] =
  (Ok 1%nat, [[Finite 0]; [fsub (Finite 0) (fmul (Finite (0.5 / IZR 10)) (Finite 1))]]).
Proof.
  unfold get_gibbs_state_params_st, mbind, lift, convert_ok.
  cbn [propagate_st]. unfold mbind, deref, lift, alloc, mret. cbn [nth_error].
  unfold euler_update, eval_const. cbn [bind t num_time_steps notebook].
  rewrite py_truediv_finite by lia. reflexivity.
Qed.

(** Witness of X6: one pass returns a new object, not the argument. *)
Lemma result_aliases_argument_iff_grid_empty_witness :
  nth_error [[Finite 0]] 0 = Some [Finite 0] /\
  fst (get_gibbs_state_params_st one_parameter convert_ok
         (eval_const [of_float (Finite 1)]) (notebook 10) tt tt
         0%nat [Finite 0] [[Finite 0]]) = Ok 1%nat /\
  (1%nat = 0%nat <-> [Finite 0] = []).
Proof.
  assert (Hrun : fst (get_gibbs_state_params_st one_parameter convert_ok
                        (eval_const [of_float (Finite 1)]) (notebook 10) tt tt
                        0%nat [Finite 0] [[Finite 0]]) = Ok 1%nat)
    by (rewrite one_step_on_the_store; reflexivity).
  split; [reflexivity|]. split; [exact Hrun|].
  exact (proj1 (result_aliases_argument_iff_grid_empty
                  nat unit unit unit one_parameter convert_ok
                  (eval_const [of_float (Finite 1)]) (notebook 10) tt tt
                  0%nat [Finite 0] [[Finite 0]] [Finite 0] 1%nat eq_refl Hrun)).
Defined.

(** Witness of X7: the notebook with [num_time_steps = 0]. *)
Lemma zero_num_time_steps_raises_witness :
  num_time_steps (notebook 0) = 0%Z /\
  convert_ok tt (one_parameter tt) = Ok tt /\
  eval_const [of_float (Finite 1)] tt (combine (one_parameter tt) [Finite 0]) =
    Ok [of_float (Finite 1)] /\
  get_gibbs_state_params one_parameter convert_ok
    (eval_const [of_float (Finite 1)]) (notebook 0) tt tt [Finite 0]
    (Finite 0 :: grid10) = Err ZeroDivisionError.
Proof.
  split; [reflexivity|]. split; [reflexivity|]. split; [reflexivity|].
  refine (proj1 (zero_num_time_steps_raises
                   nat unit unit unit one_parameter convert_ok
                   (eval_const [of_float (Finite 1)]) (notebook 0) tt tt tt
                   [Finite 0] grid10 (Finite 0) [of_float (Finite 1)] _ _ _));
    reflexivity.
Defined.

(** Witness of X8: an evaluation that raises. *)
Lemma nonzero_num_time_steps_never_divides_by_zero_witness :
  num_time_steps (notebook 10) <> 0%Z /\
  (Z.abs (num_time_steps (notebook 10)) < 2 ^ 53)%Z /\
  get_gibbs_state_params one_parameter convert_ok
    (eval_raise (Raised "LinAlgError")) (notebook 10) tt tt [Finite 0] grid10 =
    Err (Raised "LinAlgError") /\
  (Raised "LinAlgError" = ValueError \/
   convert_ok tt (one_parameter tt) = Err (Raised "LinAlgError") \/
   exists nat_grad q,
     eval_raise (Raised "LinAlgError") nat_grad q = Err (Raised "LinAlgError")).
Proof.
  assert (Hn : num_time_steps (notebook 10) <> 0%Z) by (cbn; lia).
  split; [exact Hn|]. split; [reflexivity|]. split; [reflexivity|].
  exact (nonzero_num_time_steps_never_divides_by_zero
           nat unit unit unit one_parameter convert_ok
           (eval_raise (Raised "LinAlgError")) (notebook 10) tt tt
           [Finite 0] grid10 (Raised "LinAlgError") Hn eq_refl eq_refl).
Defined.

(** Witness of X9: one pass on a vector of length one. *)
Lemma get_gibbs_state_params_keeps_length_witness :
  convert_ok tt (one_parameter tt) = Ok tt /\
  get_gibbs_state_params one_parameter convert_ok
    (eval_const [of_float (Finite 1)]) (notebook 10) tt tt [Finite 0] [Finite 0] =
    Ok [Finite (- (0.5 / IZR 10))] /\
  length [Finite (- (0.5 / IZR 10))] = length [Finite 0].
Proof.
  assert (Hrun := one_step_unit_direction 10 (Z.neq_sym _ _ (Z.lt_neq 0 10 eq_refl))).
  split; [reflexivity|]. split; [exact Hrun|].
  refine (get_gibbs_state_params_keeps_length
            nat unit unit unit one_parameter convert_ok
            (eval_const [of_float (Finite 1)]) (notebook 10) tt tt tt
            [Finite 0] [Finite 0] [Finite (- (0.5 / IZR 10))] eq_refl _ Hrun).
  intros q d Hq Hd. injection Hd as <-. symmetry. exact Hq.
Defined.

(** Witness of X10: three direction entries for two parameters. *)
Lemma direction_of_wrong_length_witness :
  num_time_steps (notebook 10) <> 0%Z /\
  length [Finite 0; Finite 1] <> 1%nat /\
  length [of_float (Finite 1); of_float (Finite 1); of_float (Finite 1)] <>
    length [Finite 0; Finite 1] /\
  get_gibbs_state_params one_parameter convert_ok
    (eval_const [of_float (Finite 1); of_float (Finite 1); of_float (Finite 1)])
    (notebook 10) tt tt [Finite 0; Finite 1] (Finite 0 :: grid10) =
  Err ValueError.
Proof.
  assert (Hn : num_time_steps (notebook 10) <> 0%Z) by (cbn; lia).
  assert (H1 : length [Finite 0; Finite 1] <> 1%nat) by (cbn; lia).
  assert (H2 : length [of_float (Finite 1); of_float (Finite 1); of_float (Finite 1)]
               <> length [Finite 0; Finite 1]) by (cbn; lia).
  split; [exact Hn|]. split; [exact H1|]. split; [exact H2|].
  refine (proj1 (direction_of_wrong_length
                   nat unit unit unit one_parameter convert_ok
                   (eval_const [of_float (Finite 1); of_float (Finite 1);
                                of_float (Finite 1)])
                   (notebook 10) tt tt tt [Finite 0; Finite 1] grid10 (Finite 0)
                   [of_float (Finite 1); of_float (Finite 1); of_float (Finite 1)]
                   Hn eq_refl eq_refl H1 H2) _).
  cbn. lia.
Defined.

(** Witness of X13: the target of the notebook and the uniform trained
    distribution. *)
Lemma loss_fn_nonnegative_witness :
  length [0.5; 0; 0; 0.5]%R = length [0.25; 0.25; 0.25; 0.25]%R /\
  Forall (fun p => (0 <= p <= 1)%R) [0.5; 0; 0; 0.5]%R /\
  Forall (fun x => (0 < x <= 1)%R) [0.25; 0.25; 0.25; 0.25]%R /\
  exists v : R,
    loss_fn (map Finite [0.5; 0; 0; 0.5]%R)
            (map probability [0.25; 0.25; 0.25; 0.25]%R) = Ok (Finite v) /\
    (0 <= v)%R.
Proof.
  assert (H1 : Forall (fun p => (0 <= p <= 1)%R) [0.5; 0; 0; 0.5]%R)
    by (repeat constructor; lra).
  assert (H2 : Forall (fun x => (0 < x <= 1)%R) [0.25; 0.25; 0.25; 0.25]%R)
    by (repeat constructor; lra).
  split; [reflexivity|]. split; [exact H1|]. split; [exact H2|].
  exact (loss_fn_nonnegative [0.5; 0; 0; 0.5]%R [0.25; 0.25; 0.25; 0.25]%R
                             eq_refl H1 H2).
Defined.


(** Witness of X15: a zero against a zero at index 1. *)
Lemma loss_fn_nan_at_zero_zero_witness :
  length [Finite 1; Finite 0] = length [probability 1; probability 0] /\
  nth_error [Finite 1; Finite 0] 1 = Some (Finite 0) /\
  nth_error [probability 1; probability 0] 1 = Some (probability 0) /\
  loss_fn [Finite 1; Finite 0] [probability 1; probability 0] = Ok NaN.
Proof.
  split; [reflexivity|]. split; [reflexivity|]. split; [reflexivity|].
  apply (loss_fn_nan_at_zero_zero _ _ 1); reflexivity.
Defined.

(** Witness of X16: a negative trained entry. *)
Lemma loss_fn_ignores_sign_witness :
  length [Finite 0.5; Finite 0.5] = length [(-0.5)%R; 0.5%R] /\
  loss_fn [Finite 0.5; Finite 0.5] (map probability [(-0.5)%R; 0.5%R]) =
  loss_fn [Finite 0.5; Finite 0.5] (map probability (map Rabs [(-0.5)%R; 0.5%R])).
Proof.
  split; [reflexivity|]. apply loss_fn_ignores_sign. reflexivity.
Defined.


(** Witness of X19: the second trained entry is zero, the target is not. *)
Lemma loss_fn_infinite_off_support_witness :
  Forall2 (fun p x => (0 < x)%R \/ (x = 0%R /\ (0 < p)%R))
          [0.5; 0.5]%R [1; 0]%R /\
  Exists (fun x => x = 0%R) [1; 0]%R /\
  loss_fn (map Finite [0.5; 0.5]%R) (map probability [1; 0]%R) = Ok PInf.
Proof.
  assert (H2 : Forall2 (fun p x => (0 < x)%R \/ (x = 0%R /\ (0 < p)%R))
                       [0.5; 0.5]%R [1; 0]%R).
  { constructor; [left; lra|]. constructor; [right; split; [reflexivity|lra]|].
    constructor. }
  assert (Hex : Exists (fun x => x = 0%R) [1; 0]%R)
    by (apply Exists_cons_tl, Exists_cons_hd; reflexivity).
  split; [exact H2|]. split; [exact Hex|].
  exact (loss_fn_infinite_off_support [0.5; 0.5]%R [1; 0]%R H2 Hex).
Defined.
